(** * CAUGHT-IN-CLASS: the frame-to-detection pipeline and the face registry

    A shallow embedding of [workers.py] (class [DetectionWorker]) and
    [face_manager.py] (class [FaceManager]).

    Conventions of the embedding.
    - A Python [str] is a [string] whose characters are the code points
      U+0000 .. U+00FF; [str.encode()] is the UTF-8 encoding of these.
    - A Python [float] that is finite (timestamps, intervals, distances) is
      the rational number it denotes, in [Q]; comparisons are exact. A
      literal is the float64 Python reads it as: [0.5] is 1/2, [0.6] is
      5404319552844595 / 2^53.
    - [os.path] is [posixpath]: the separator is [/].
    - A [set] of strings is a [gset string], a [dict] keyed by strings a
      [gmap string _].
    - The capabilities of [face_recognition], [cv2] and the file system are
      not part of the repository: they are the variables of the sections
      below, or the fields of the records describing the outside world. *)

From Stdlib Require Import ZArith QArith Lqa String Ascii List Lia.
From stdpp Require Import gmap strings list pretty.
Import ListNotations.

#[local] Set Warnings "-clear-no-such-hyp".

Local Open Scope string_scope.
Local Open Scope list_scope.
Local Open Scope Z_scope.

(** ** Python string helpers *)

Module PyStr.

Definition code (c : ascii) : Z := Z.of_N (N_of_ascii c).
Definition chr (z : Z) : ascii := ascii_of_N (Z.to_N z).

(** [str.isspace] on one character of the range U+0000 .. U+00FF. *)
Definition is_space (c : ascii) : bool :=
  let n := code c in
  ((9 <=? n) && (n <=? 13)) || ((28 <=? n) && (n <=? 32))
  || (n =? 133) || (n =? 160).

Fixpoint lstrip (s : string) : string :=
  match s with
  | String c s' => if is_space c then lstrip s' else s
  | EmptyString => EmptyString
  end.

Definition rev_string (s : string) : string :=
  string_of_list_ascii (List.rev (list_ascii_of_string s)).

Definition rstrip (s : string) : string := rev_string (lstrip (rev_string s)).

(** [s.strip()] *)
Definition strip (s : string) : string := rstrip (lstrip s).

(** Truth value of a string: [not s] is [is_empty s]. *)
Definition is_empty (s : string) : bool :=
  match s with EmptyString => true | _ => false end.

(** [s.startswith(p)] *)
Definition startswith (p s : string) : bool := String.prefix p s.

(** [s.split("_")[0]] *)
Fixpoint before_underscore (s : string) : string :=
  match s with
  | EmptyString => EmptyString
  | String c s' => if (code c =? 95) then EmptyString else String c (before_underscore s')
  end.

(** ["_" in s] *)
Fixpoint has_underscore (s : string) : bool :=
  match s with
  | EmptyString => false
  | String c s' => (code c =? 95) || has_underscore s'
  end.

(** [s[:n]] for [n >= 0] *)
Fixpoint take (n : nat) (s : string) : string :=
  match n, s with
  | S n', String c s' => String c (take n' s')
  | _, _ => EmptyString
  end.

(** [s.encode()]: UTF-8, one byte below U+0080 and two bytes above. *)
Fixpoint encode (s : string) : list Z :=
  match s with
  | EmptyString => []
  | String c s' =>
      let n := code c in
      if n <? 128 then n :: encode s'
      else Z.lor 192 (Z.shiftr n 6) :: Z.lor 128 (Z.land n 63) :: encode s'
  end.

Definition hex_digit (z : Z) : ascii :=
  if z <? 10 then chr (48 + z) else chr (87 + z).

(** [bytes.hex()] *)
Fixpoint hex (bs : list Z) : string :=
  match bs with
  | [] => EmptyString
  | b :: bs' => String (hex_digit (Z.shiftr b 4)) (String (hex_digit (Z.land b 15)) (hex bs'))
  end.

End PyStr.

(** ** [hashlib.md5] (RFC 1321), on 32-bit words held in [Z] *)

Module MD5.

Definition mask32 : Z := 0xFFFFFFFF.
Definition add32 (x y : Z) : Z := Z.land (x + y) mask32.
Definition not32 (x : Z) : Z := Z.lxor x mask32.
Definition rotl32 (x n : Z) : Z :=
  Z.lor (Z.land (Z.shiftl x n) mask32) (Z.shiftr x (32 - n)).

Definition K : list Z :=
  [ 0xd76aa478; 0xe8c7b756; 0x242070db; 0xc1bdceee;
    0xf57c0faf; 0x4787c62a; 0xa8304613; 0xfd469501;
    0x698098d8; 0x8b44f7af; 0xffff5bb1; 0x895cd7be;
    0x6b901122; 0xfd987193; 0xa679438e; 0x49b40821;
    0xf61e2562; 0xc040b340; 0x265e5a51; 0xe9b6c7aa;
    0xd62f105d; 0x02441453; 0xd8a1e681; 0xe7d3fbc8;
    0x21e1cde6; 0xc33707d6; 0xf4d50d87; 0x455a14ed;
    0xa9e3e905; 0xfcefa3f8; 0x676f02d9; 0x8d2a4c8a;
    0xfffa3942; 0x8771f681; 0x6d9d6122; 0xfde5380c;
    0xa4beea44; 0x4bdecfa9; 0xf6bb4b60; 0xbebfbc70;
    0x289b7ec6; 0xeaa127fa; 0xd4ef3085; 0x04881d05;
    0xd9d4d039; 0xe6db99e5; 0x1fa27cf8; 0xc4ac5665;
    0xf4292244; 0x432aff97; 0xab9423a7; 0xfc93a039;
    0x655b59c3; 0x8f0ccc92; 0xffeff47d; 0x85845dd1;
    0x6fa87e4f; 0xfe2ce6e0; 0xa3014314; 0x4e0811a1;
    0xf7537e82; 0xbd3af235; 0x2ad7d2bb; 0xeb86d391 ].

Definition shifts : list Z :=
  [ 7; 12; 17; 22; 7; 12; 17; 22; 7; 12; 17; 22; 7; 12; 17; 22;
    5; 9; 14; 20; 5; 9; 14; 20; 5; 9; 14; 20; 5; 9; 14; 20;
    4; 11; 16; 23; 4; 11; 16; 23; 4; 11; 16; 23; 4; 11; 16; 23;
    6; 10; 15; 21; 6; 10; 15; 21; 6; 10; 15; 21; 6; 10; 15; 21 ].

(** Little-endian bytes of a word and back. *)
Fixpoint le_bytes (n : nat) (x : Z) : list Z :=
  match n with
  | O => []
  | S n' => Z.land x 255 :: le_bytes n' (Z.shiftr x 8)
  end.

Fixpoint le_word (bs : list Z) : Z :=
  match bs with
  | [] => 0
  | b :: bs' => Z.lor b (Z.shiftl (le_word bs') 8)
  end.

(** The message followed by 0x80, zeros up to 56 modulo 64, and the bit
    length on 8 bytes. *)
Definition pad (msg : list Z) : list Z :=
  let len := Z.of_nat (length msg) in
  let zeros := Z.to_nat ((55 - len) mod 64) in
  msg ++ [128] ++ repeat 0 zeros ++ le_bytes 8 (Z.land (8 * len) 0xFFFFFFFFFFFFFFFF).

Definition block_words (padded : list Z) (i : nat) : list Z :=
  let blk := firstn 64 (skipn (64 * i) padded) in
  List.map (fun j => le_word (firstn 4 (skipn (4 * j) blk))) (seq 0 16).

Definition round (M : list Z) (st : Z * Z * Z * Z) (i : nat) : Z * Z * Z * Z :=
  let '(A, B, C, D) := st in
  let iz := Z.of_nat i in
  let '(F, g) :=
    if iz <? 16 then (Z.lor (Z.land B C) (Z.land (not32 B) D), iz)
    else if iz <? 32 then (Z.lor (Z.land D B) (Z.land (not32 D) C), (5 * iz + 1) mod 16)
    else if iz <? 48 then (Z.lxor (Z.lxor B C) D, (3 * iz + 5) mod 16)
    else (Z.lxor C (Z.lor B (not32 D)), (7 * iz) mod 16) in
  let F' := add32 (add32 (add32 F A) (nth i K 0)) (nth (Z.to_nat g) M 0) in
  (D, add32 B (rotl32 F' (nth i shifts 0)), B, C).

Definition compress (padded : list Z) (h : Z * Z * Z * Z) (i : nat) : Z * Z * Z * Z :=
  let '(a0, b0, c0, d0) := h in
  let '(A, B, C, D) := fold_left (round (block_words padded i)) (seq 0 64) h in
  (add32 a0 A, add32 b0 B, add32 c0 C, add32 d0 D).

Definition digest (msg : list Z) : list Z :=
  let padded := pad msg in
  let '(a, b, c, d) :=
    fold_left (compress padded) (seq 0 (length padded / 64))
              (0x67452301, 0xefcdab89, 0x98badcfe, 0x10325476) in
  le_bytes 4 a ++ le_bytes 4 b ++ le_bytes 4 c ++ le_bytes 4 d.

(** [hashlib.md5(bs).hexdigest()] *)
Definition hexdigest (msg : list Z) : string := PyStr.hex (digest msg).

End MD5.

(** ** Images and face encodings *)

(** A [numpy] image of shape (H, W, 3) and dtype uint8: rows of pixels. *)
Definition Pixel : Type := Z * Z * Z.
Definition Image : Type := list (list Pixel).

(** (top, right, bottom, left), as [face_recognition] orders a face box. *)
Definition Location : Type := Z * Z * Z * Z.

(** A face encoding is a [numpy] array of float64; each component is held
    as its IEEE-754 binary64 bit pattern, which is what [tobytes] lays out. *)
Definition FaceEncoding : Type := list Z.

Module Np.

(** Python's normalisation of a slice bound against a length. *)
Definition bound (i : Z) (len : nat) : nat :=
  if i <? 0 then Z.to_nat (Z.max (i + Z.of_nat len) 0)
  else Nat.min (Z.to_nat i) len.

(** [l[a:b]] *)
Definition slice {A : Type} (a b : Z) (l : list A) : list A :=
  let na := bound a (length l) in
  let nb := bound b (length l) in
  firstn (nb - na) (skipn na l).

(** [frame[top:bottom, left:right]] *)
Definition crop (frame : Image) (loc : Location) : Image :=
  let '(top, right_, bottom, left_) := loc in
  List.map (slice left_ right_) (slice top bottom frame).

(** [arr.tobytes()] of a float64 array, little endian. *)
Definition tobytes (e : FaceEncoding) : list Z :=
  flat_map (MD5.le_bytes 8) e.

(** [cv2.cvtColor(img, cv2.COLOR_BGR2RGB)]; OpenCV raises on an empty
    image, which is [None] here. *)
Definition cvtColor_BGR2RGB (img : Image) : option Image :=
  match img with
  | [] | [] :: _ => None
  | _ => Some (List.map (List.map (fun '(b, g, r) => (r, g, b))) img)
  end.

Definition Qltb (x y : Q) : bool := negb (Qle_bool y x).

(** [np.argmin]: the first index holding the least value. *)
Fixpoint argmin_from (best_i : nat) (best : Q) (i : nat) (ds : list Q) : nat :=
  match ds with
  | [] => best_i
  | d :: ds' =>
      if Qltb d best then argmin_from i d (S i) ds'
      else argmin_from best_i best (S i) ds'
  end.

Definition argmin (ds : list Q) : option nat :=
  match ds with
  | [] => None
  | d :: ds' => Some (argmin_from 0 d 1 ds')
  end.

End Np.

(** What [face_recognition] and [cv2.resize] compute is outside the
    repository; the pipeline is parametric in it. *)
Class FaceLib : Type := {
  (** [cv2.resize(img, (0, 0), fx=0.25, fy=0.25)] *)
  resize_quarter : Image -> Image;
  (** [face_recognition.face_locations(img, model="hog")] *)
  face_locations : Image -> list Location;
  (** [face_recognition.face_encodings(img, locations)] *)
  face_encodings_at : Image -> list Location -> list FaceEncoding;
  (** [face_recognition.face_encodings(img)] *)
  face_encodings : Image -> list FaceEncoding;
  (** one entry of [face_recognition.face_distance(known, enc)] *)
  face_distance : FaceEncoding -> FaceEncoding -> Q;
}.

(** ** workers.py: [DetectionWorker] *)

Module DetectionWorker.

Record t : Type := mk {
  known_face_encodings : list FaceEncoding;
  known_face_names : list string;
  running : bool;
  session_seen_known : gset string;
  session_seen_unknown_hashes : gset string;
  last_processing_time : Q;
  processing_interval : Q;
  pending_frame : option Image;
}.

(** One entry of the ['detections'] list of a result. *)
Record Detection : Type := mkDetection {
  type : string;
  name : string;
  face_crop : Image;
  face_location : Location;
  detection_hash : string;
  status : string;
}.

(** The dictionary sent on the [detection_result] signal. *)
Record Result : Type := mkResult {
  timestamp : Q;
  detections : list Detection;
  total_faces : nat;
}.

(** [__init__] *)
Definition init (encodings : list FaceEncoding) (names : list string) : t :=
  {| known_face_encodings := encodings;
     known_face_names := names;
     running := false;
     session_seen_known := ∅;
     session_seen_unknown_hashes := ∅;
     last_processing_time := 0;
     processing_interval := 2;
     pending_frame := None |}.

Definition update_known_faces (w : t) (encodings : list FaceEncoding) (names : list string) : t :=
  {| known_face_encodings := encodings;
     known_face_names := names;
     running := running w;
     session_seen_known := session_seen_known w;
     session_seen_unknown_hashes := session_seen_unknown_hashes w;
     last_processing_time := last_processing_time w;
     processing_interval := processing_interval w;
     pending_frame := pending_frame w |}.

(** [max(0.5, interval)]: Python keeps the first argument unless the
    second is strictly greater. *)
Definition py_max (a b : Q) : Q := if Np.Qltb a b then b else a.

Definition set_processing_interval (w : t) (interval : Q) : t :=
  {| known_face_encodings := known_face_encodings w;
     known_face_names := known_face_names w;
     running := running w;
     session_seen_known := session_seen_known w;
     session_seen_unknown_hashes := session_seen_unknown_hashes w;
     last_processing_time := last_processing_time w;
     processing_interval := py_max (1 # 2) interval;
     pending_frame := pending_frame w |}.

Definition set_pending (w : t) (p : option Image) : t :=
  {| known_face_encodings := known_face_encodings w;
     known_face_names := known_face_names w;
     running := running w;
     session_seen_known := session_seen_known w;
     session_seen_unknown_hashes := session_seen_unknown_hashes w;
     last_processing_time := last_processing_time w;
     processing_interval := processing_interval w;
     pending_frame := p |}.

(** The old frame is dropped and a copy of the new one stored. *)
Definition queue_frame (w : t) (frame : Image) : t := set_pending w (Some frame).

(** [current_time] is what [datetime.now().timestamp()] returns. *)
Definition should_process_frame (w : t) (current_time : Q) : bool :=
  Qle_bool (processing_interval w) (current_time - last_processing_time w).

Definition reset_session (w : t) : t :=
  {| known_face_encodings := known_face_encodings w;
     known_face_names := known_face_names w;
     running := running w;
     session_seen_known := ∅;
     session_seen_unknown_hashes := ∅;
     last_processing_time := last_processing_time w;
     processing_interval := processing_interval w;
     pending_frame := pending_frame w |}.

Definition see_known (w : t) (n : string) : t :=
  {| known_face_encodings := known_face_encodings w;
     known_face_names := known_face_names w;
     running := running w;
     session_seen_known := {[n]} ∪ session_seen_known w;
     session_seen_unknown_hashes := session_seen_unknown_hashes w;
     last_processing_time := last_processing_time w;
     processing_interval := processing_interval w;
     pending_frame := pending_frame w |}.

Definition see_unknown (w : t) (h : string) : t :=
  {| known_face_encodings := known_face_encodings w;
     known_face_names := known_face_names w;
     running := running w;
     session_seen_known := session_seen_known w;
     session_seen_unknown_hashes := {[h]} ∪ session_seen_unknown_hashes w;
     last_processing_time := last_processing_time w;
     processing_interval := processing_interval w;
     pending_frame := pending_frame w |}.

(** [f"{name}_{face_encoding.tobytes().hex()[:32]}"], then MD5. *)
Definition _generate_detection_hash (face_encoding : FaceEncoding) (n : string) : string :=
  let hash_input :=
    (n ++ "_" ++ PyStr.take 32 (PyStr.hex (Np.tobytes face_encoding)))%string in
  MD5.hexdigest (PyStr.encode hash_input).

Definition _process_known_face (w : t) (n : string) (crop : Image)
    (loc : Location) (face_encoding : FaceEncoding) : t * option Detection :=
  if decide (n ∈ session_seen_known w) then (w, None)
  else
    let w' := see_known w n in
    let h := _generate_detection_hash face_encoding n in
    (w', Some {| type := "known"; name := n; face_crop := crop;
                 face_location := loc; detection_hash := h; status := "Present" |}).

Definition _process_unknown_face (w : t) (crop : Image)
    (loc : Location) (face_encoding : FaceEncoding) : t * option Detection :=
  let unknown_hash := _generate_detection_hash face_encoding "Unknown" in
  if decide (unknown_hash ∈ session_seen_unknown_hashes w) then (w, None)
  else
    let w' := see_unknown w unknown_hash in
    (w', Some {| type := "unknown"; name := "Unknown"; face_crop := crop;
                 face_location := loc; detection_hash := unknown_hash;
                 status := "Unknown" |}).

(** The literal [0.6] of [_process_single_face]: Python reads it as the
    float64 nearest to 6/10, which is 5404319552844595 / 2^53 and lies just
    below 6/10. *)
Definition threshold : Q := 5404319552844595 # 9007199254740992.

Section WithFaceLib.
Context `{FaceLib}.

(** The [IndexError] of [known_face_names[best_match_index]] is caught
    by the function's own handler, which returns [None]. *)
Definition _process_single_face (w : t) (face_encoding : FaceEncoding)
    (loc : Location) (frame : Image) : t * option Detection :=
  let crop := Np.crop frame loc in
  if (length (known_face_encodings w) =? 0)%nat then
    _process_unknown_face w crop loc face_encoding
  else
    let face_distances :=
      List.map (fun k => face_distance k face_encoding) (known_face_encodings w) in
    match Np.argmin face_distances with
    | None => (w, None)
    | Some best_match_index =>
        match nth_error face_distances best_match_index with
        | None => (w, None)
        | Some d =>
            if Np.Qltb d threshold then
              match nth_error (known_face_names w) best_match_index with
              | None => (w, None)
              | Some n => _process_known_face w n crop loc face_encoding
              end
            else _process_unknown_face w crop loc face_encoding
        end
    end.

(** The loop over [zip(face_encodings, face_locations)]. *)
Fixpoint process_faces (w : t) (frame : Image)
    (faces : list (FaceEncoding * Location)) : t * list Detection :=
  match faces with
  | [] => (w, [])
  | (enc, loc) :: rest =>
      let '(w1, r) := _process_single_face w enc loc frame in
      let '(w2, rs) := process_faces w1 frame rest in
      (w2, match r with Some d => d :: rs | None => rs end)
  end.

Definition scale4 (loc : Location) : Location :=
  let '(top, right_, bottom, left_) := loc in
  (top * 4, right_ * 4, bottom * 4, left_ * 4).

(** [process_frame]; [now] is the [datetime.now()] of the emitted
    result. A frame that OpenCV cannot convert raises, is reported on
    [detection_error] and yields no result. *)
Definition process_frame (w : t) (frame : Image) (now : Q) : t * option Result :=
  if negb (running w) then (w, None)
  else
    match Np.cvtColor_BGR2RGB frame with
    | None => (w, None)
    | Some rgb_frame =>
        let small_frame := resize_quarter rgb_frame in
        let locs := List.map scale4 (face_locations small_frame) in
        let encs := face_encodings_at rgb_frame locs in
        let '(w', detection_results) := process_faces w frame (combine encs locs) in
        (w', match detection_results with
             | [] => None
             | _ => Some {| timestamp := now; detections := detection_results;
                            total_faces := length locs |}
             end)
    end.

(** *** The loop of [run], interleaved with the calls of the GUI thread

    The worker thread is either about to test the condition of the
    loop body ([AtCheck]) or has returned from [process_frame] and is
    about to stamp the time and clear the slot ([AtStamp]). Calls made
    by the GUI thread are atomic and may come at either point. *)

Inductive Pc : Type := AtCheck | AtStamp.

Record Sched : Type := mkSched { worker : t; pc : Pc }.

Inductive Event : Type :=
| Queue (frame : Image)
| SetInterval (interval : Q)
| ResetSession
| UpdateKnown (encodings : list FaceEncoding) (names : list string)
| Clock (now : Q).

(** A call of [process_frame]: the frame handed over, the clock reading
    of the check that let it through, and what was emitted. *)
Inductive Output : Type :=
| Processed (frame : Image) (at_time : Q) (result : option Result).

(** [self.running = True] on entry of [run]. *)
Definition run_start (w : t) : Sched :=
  {| worker :=
       {| known_face_encodings := known_face_encodings w;
          known_face_names := known_face_names w;
          running := true;
          session_seen_known := session_seen_known w;
          session_seen_unknown_hashes := session_seen_unknown_hashes w;
          last_processing_time := last_processing_time w;
          processing_interval := processing_interval w;
          pending_frame := pending_frame w |};
     pc := AtCheck |}.

(** Lines 155-159: stamp the time, clear the slot. *)
Definition stamp_and_clear (w : t) (now : Q) : t :=
  {| known_face_encodings := known_face_encodings w;
     known_face_names := known_face_names w;
     running := running w;
     session_seen_known := session_seen_known w;
     session_seen_unknown_hashes := session_seen_unknown_hashes w;
     last_processing_time := now;
     processing_interval := processing_interval w;
     pending_frame := None |}.

Definition step (s : Sched) (ev : Event) : Sched * list Output :=
  let w := worker s in
  match ev with
  | Queue frame => ({| worker := queue_frame w frame; pc := pc s |}, [])
  | SetInterval x => ({| worker := set_processing_interval w x; pc := pc s |}, [])
  | ResetSession => ({| worker := reset_session w; pc := pc s |}, [])
  | UpdateKnown es ns => ({| worker := update_known_faces w es ns; pc := pc s |}, [])
  | Clock now =>
      match pc s with
      | AtCheck =>
          match pending_frame w with
          | Some frame =>
              if should_process_frame w now then
                let '(w', r) := process_frame w frame now in
                ({| worker := w'; pc := AtStamp |}, [Processed frame now r])
              else (s, [])
          | None => (s, [])
          end
      | AtStamp => ({| worker := stamp_and_clear w now; pc := AtCheck |}, [])
      end
  end.

Fixpoint exec (s : Sched) (evs : list Event) : Sched * list Output :=
  match evs with
  | [] => (s, [])
  | ev :: evs' =>
      let '(s1, o1) := step s ev in
      let '(s2, o2) := exec s1 evs' in
      (s2, o1 ++ o2)
  end.

Definition processed_frames (os : list Output) : list Image :=
  List.map (fun '(Processed f _ _) => f) os.

Definition processed_times (os : list Output) : list Q :=
  List.map (fun '(Processed _ t _) => t) os.

Definition queued_frames (evs : list Event) : list Image :=
  flat_map (fun ev => match ev with Queue f => [f] | _ => [] end) evs.

Definition clock_readings (evs : list Event) : list Q :=
  flat_map (fun ev => match ev with Clock t => [t] | _ => [] end) evs.

Definition emitted (os : list Output) : list Detection :=
  flat_map (fun '(Processed _ _ r) =>
              match r with Some res => detections res | None => [] end) os.

End WithFaceLib.

(** [get_session_summary]; the order of ['known_names'] is that of the
    iteration over the set. *)
Record SessionSummary : Type := mkSessionSummary {
  known_faces : nat;
  unknown_faces : nat;
  known_names : list string;
  total_detections : nat;
}.

Definition get_session_summary (w : t) : SessionSummary :=
  {| known_faces := size (session_seen_known w);
     unknown_faces := size (session_seen_unknown_hashes w);
     known_names := elements (session_seen_known w);
     total_detections :=
       (size (session_seen_known w) + size (session_seen_unknown_hashes w))%nat |}.

(** [get_processing_status]; [current_time] is the reading of the clock. *)
Record ProcessingStatus : Type := mkProcessingStatus {
  status_interval : Q;
  time_since_last_processing : Q;
  has_pending_frame : bool;
  frames_processed : bool;
}.

Definition get_processing_status (w : t) (current_time : Q) : ProcessingStatus :=
  {| status_interval := processing_interval w;
     time_since_last_processing := current_time - last_processing_time w;
     has_pending_frame := match pending_frame w with Some _ => true | None => false end;
     frames_processed := Np.Qltb 0 (last_processing_time w) |}.

End DetectionWorker.

(** ** face_manager.py: [FaceManager] *)

Module OsPath.

Definition is_dot (c : ascii) : bool := PyStr.code c =? 46.

(** Index of the last dot, scanning from index [i]. *)
Fixpoint rfind_dot (i : nat) (cs : list ascii) : option nat :=
  match cs with
  | [] => None
  | c :: cs' =>
      match rfind_dot (S i) cs' with
      | Some j => Some j
      | None => if is_dot c then Some i else None
      end
  end.

(** [os.path.splitext] on a name without directory separators: split at
    the last dot unless only dots come before it. *)
Definition splitext (p : string) : string * string :=
  let cs := list_ascii_of_string p in
  match rfind_dot 0 cs with
  | None => (p, "")
  | Some i =>
      if existsb (fun c => negb (is_dot c)) (firstn i cs)
      then (string_of_list_ascii (firstn i cs), string_of_list_ascii (skipn i cs))
      else (p, "")
  end.

Definition lower_char (c : ascii) : ascii :=
  let n := PyStr.code c in
  if ((65 <=? n) && (n <=? 90)) || ((192 <=? n) && (n <=? 222) && negb (n =? 215))
  then PyStr.chr (n + 32) else c.

(** [s.lower()] *)
Fixpoint lower (s : string) : string :=
  match s with
  | EmptyString => EmptyString
  | String c s' => String (lower_char c) (lower s')
  end.

Definition is_sep (c : ascii) : bool := PyStr.code c =? 47.

(** ["/" in p] *)
Fixpoint has_sep (p : string) : bool :=
  match p with
  | EmptyString => false
  | String c p' => is_sep c || has_sep p'
  end.

(** [p.endswith("/")] *)
Fixpoint ends_with_sep (p : string) : bool :=
  match p with
  | EmptyString => false
  | String c EmptyString => is_sep c
  | String _ p' => ends_with_sep p'
  end.

(** [os.path.basename(p)]: what follows the last separator. *)
Fixpoint basename (p : string) : string :=
  match p with
  | EmptyString => EmptyString
  | String c p' =>
      if has_sep p' then basename p'
      else if is_sep c then p' else p
  end.

(** [os.path.join(d, f)]: an absolute [f] discards [d]; no separator is
    put after an empty [d] or after one that ends with a separator. *)
Definition join (d f : string) : string :=
  match f with
  | String c _ =>
      if is_sep c then f
      else if PyStr.is_empty d || ends_with_sep d then (d ++ f)%string
      else (d ++ "/" ++ f)%string
  | EmptyString =>
      if PyStr.is_empty d || ends_with_sep d then d else (d ++ "/")%string
  end.

End OsPath.

Module FaceManager.

Inductive Level : Type := DEBUG | INFO | WARNING | ERROR.

(** One entry of [os.listdir(faces_dir)]; [loaded] is what
    [_load_and_process_image] returns for that path. *)
Record DirEntry : Type := mkEntry {
  filename : string;
  is_file : bool;
  loaded : option Image;
}.

(** The dictionary pickled into [encodings.pkl]. *)
Record Snapshot : Type := mkSnapshot {
  encodings : list FaceEncoding;
  names : list string;
  timestamp : string;
}.

Inductive PickleFile : Type :=
| Absent
| Unreadable (err : string)
| Pickled (data : Snapshot).

(** The part of the outside world the manager reads and writes. *)
Record World : Type := mkWorld {
  listing : list DirEntry;
  encodings_pkl : PickleFile;
  log : list (Level * string);
}.

Record t : Type := mk {
  faces_dir : string;
  unknowns_dir : string;
  known_face_encodings : list FaceEncoding;
  known_face_names : list string;
  known_face_images : gmap string Image;
}.

Definition logger (lvl : Level) (msg : string) (wd : World) : World :=
  {| listing := listing wd; encodings_pkl := encodings_pkl wd;
     log := log wd ++ [(lvl, msg)] |}.

Definition with_registry (fm : t) (es : list FaceEncoding) (ns : list string)
    (imgs : gmap string Image) : t :=
  {| faces_dir := faces_dir fm; unknowns_dir := unknowns_dir fm;
     known_face_encodings := es; known_face_names := ns;
     known_face_images := imgs |}.

Definition supported_ext (ext : string) : bool :=
  existsb (String.eqb ext)
    [".jpg"; ".jpeg"; ".png"; ".bmp"; ".gif"; ".webp"; ".tiff"; ".tif"].

(** The name a file of the faces directory stands for. *)
Definition name_of_file (fname : string) : string :=
  let base_name := fst (OsPath.splitext fname) in
  if PyStr.has_underscore base_name then PyStr.before_underscore base_name
  else base_name.

(** What one call of [register_unknown_face] meets outside the program. *)
Inductive ImwriteOutcome : Type :=
| Written (reloads_as : option Image)
| NotWritten
| ImwriteRaises.

Inductive SaveOutcome : Type :=
| Saved
| SaveRaises (remains : PickleFile).

Record IO : Type := mkIO {
  strftime_now : string;
  isoformat_now : string;
  imwrite_outcome : ImwriteOutcome;
  (** for a file name that holds a separator: whether its path leads
      back into the faces directory, as that of [./x.jpg] does *)
  lands_in_faces_dir : bool;
  save_outcome : SaveOutcome;
  exc_text : string;
}.

(** A directory listing after a file has been written into it: the file
    is created, or replaces the one of that name. *)
Definition with_file (entries : list DirEntry) (fname : string)
    (reloads_as : option Image) : list DirEntry :=
  List.filter (fun e => negb (String.eqb (filename e) fname)) entries
  ++ [{| filename := fname; is_file := true; loaded := reloads_as |}].

(** [os.listdir(faces_dir)] after [cv2.imwrite(os.path.join(faces_dir, f), img)]
    has written its file. A file name without separator lands in the
    directory under that name. With a separator the path is absolute or
    goes through other directories; where it ends is for the file system
    to say, and a file that ends in the faces directory is listed under
    its last component. *)
Definition listing_after_imwrite (wd : World) (io : IO) (f : string)
    (reloads_as : option Image) : list DirEntry :=
  if OsPath.has_sep f then
    if lands_in_faces_dir io then with_file (listing wd) (OsPath.basename f) reloads_as
    else listing wd
  else with_file (listing wd) f reloads_as.

(** [_save_persistent_encodings]: every failure is caught inside. *)
Definition _save_persistent_encodings (fm : t) (wd : World) (io : IO) : World * bool :=
  match save_outcome io with
  | Saved =>
      let data := {| encodings := known_face_encodings fm;
                     names := known_face_names fm;
                     timestamp := isoformat_now io |} in
      let wd1 := {| listing := listing wd; encodings_pkl := Pickled data;
                    log := log wd |} in
      (logger INFO ("Saved " ++ pretty (length (known_face_names fm))
                      ++ " encodings to persistent storage")%string wd1, true)
  | SaveRaises remains =>
      let wd1 := {| listing := listing wd; encodings_pkl := remains;
                    log := log wd |} in
      (logger ERROR ("Error saving persistent encodings: " ++ exc_text io)%string wd1, false)
  end.

(** [_find_image_for_name] *)
Definition _find_image_for_name (fm : t) (wd : World) (n : string) : option DirEntry :=
  List.find (fun e => PyStr.startswith (n ++ "_")%string (filename e)
                      || String.eqb (fst (OsPath.splitext (filename e))) n)
            (listing wd).

(** [_load_images_for_persistent_encodings] *)
Fixpoint load_images_loop (fm : t) (wd : World) (ns : list string) : t * World :=
  match ns with
  | [] => (fm, wd)
  | n :: ns' =>
      match _find_image_for_name fm wd n with
      | Some e =>
          match loaded e with
          | Some image =>
              load_images_loop
                (with_registry fm (known_face_encodings fm) (known_face_names fm)
                               (<[n := image]> (known_face_images fm)))
                (logger DEBUG ("Loaded image for persistent encoding: " ++ n)%string wd) ns'
          | None => load_images_loop fm wd ns'
          end
      | None => load_images_loop fm wd ns'
      end
  end.

Definition _load_images_for_persistent_encodings (fm : t) (wd : World) : t * World :=
  load_images_loop fm wd (known_face_names fm).

(** [_load_persistent_encodings]: the two lists are assigned from the
    snapshot. *)
Definition _load_persistent_encodings (fm : t) (wd : World) : t * World :=
  match encodings_pkl wd with
  | Absent => (fm, wd)
  | Unreadable err =>
      (fm, logger ERROR ("Error loading persistent encodings: " ++ err)%string wd)
  | Pickled data =>
      let fm1 := with_registry fm (encodings data) (names data) (known_face_images fm) in
      let wd1 := logger INFO ("Loaded " ++ pretty (length (names data))
                                ++ " persistent encodings")%string wd in
      _load_images_for_persistent_encodings fm1 wd1
  end.

Section WithFaceLib.
Context `{FaceLib}.

(** The loop of [_load_known_faces] over [os.listdir(faces_dir)]; the
    directory exists, [__init__] has created it. *)
Fixpoint load_faces_loop (fm : t) (wd : World) (loaded_count : nat)
    (entries : list DirEntry) : t * World * nat :=
  match entries with
  | [] => (fm, wd, loaded_count)
  | e :: rest =>
      if negb (is_file e) then load_faces_loop fm wd loaded_count rest
      else if negb (supported_ext (OsPath.lower (snd (OsPath.splitext (filename e))))) then
        load_faces_loop fm
          (logger WARNING ("Skipping unsupported format: " ++ filename e)%string wd)
          loaded_count rest
      else
        match loaded e with
        | None => load_faces_loop fm wd loaded_count rest
        | Some image =>
            match face_encodings image with
            | enc :: _ =>
                let n := name_of_file (filename e) in
                load_faces_loop
                  (with_registry fm (known_face_encodings fm ++ [enc])
                                 (known_face_names fm ++ [n])
                                 (<[n := image]> (known_face_images fm)))
                  (logger INFO ("Loaded face: " ++ filename e ++ " -> " ++ n)%string wd)
                  (S loaded_count) rest
            | [] =>
                load_faces_loop fm
                  (logger WARNING ("No face found in " ++ filename e)%string wd)
                  loaded_count rest
            end
        end
  end.

Definition _load_known_faces (fm : t) (wd : World) : t * World :=
  let '(fm', wd', loaded_count) := load_faces_loop fm wd 0%nat (listing wd) in
  (fm', logger INFO ("Successfully loaded " ++ pretty loaded_count ++ " faces")%string wd').

(** [__init__] *)
Definition init (faces unknowns : string) (wd : World) : t * World :=
  let fm0 := {| faces_dir := faces; unknowns_dir := unknowns;
                known_face_encodings := []; known_face_names := [];
                known_face_images := ∅ |} in
  let '(fm1, wd1) := _load_known_faces fm0 wd in
  _load_persistent_encodings fm1 wd1.

(** The loop of [_remove_duplicate_encodings], from the last index
    down; [None] is the [IndexError] of [known_face_encodings[i]]. *)
Fixpoint dedup_loop (fm : t) (idxs : list nat)
    (acc : gset string * list FaceEncoding * list string * gmap string Image)
    : option (list FaceEncoding * list string * gmap string Image) :=
  match idxs with
  | [] => let '(_, ue, un, ui) := acc in Some (ue, un, ui)
  | i :: idxs' =>
      let '(seen_names, unique_encodings, unique_names, unique_images) := acc in
      match nth_error (known_face_names fm) i with
      | None => None
      | Some n =>
          if decide (n ∈ seen_names) then dedup_loop fm idxs' acc
          else
            match nth_error (known_face_encodings fm) i with
            | None => None
            | Some enc =>
                dedup_loop fm idxs'
                  ({[n]} ∪ seen_names, enc :: unique_encodings, n :: unique_names,
                   match known_face_images fm !! n with
                   | Some img => <[n := img]> unique_images
                   | None => unique_images
                   end)
            end
      end
  end.

Definition _remove_duplicate_encodings (fm : t) (wd : World) : t * World :=
  match dedup_loop fm (List.rev (seq 0 (length (known_face_names fm)))) (∅, [], [], ∅) with
  | Some (ue, un, ui) => (with_registry fm ue un ui, wd)
  | None =>
      (fm, logger ERROR "Error removing duplicate encodings: list index out of range" wd)
  end.

(** [refresh_faces] *)
Definition refresh_faces (fm : t) (wd : World) : t * World :=
  let fm0 := with_registry fm [] [] ∅ in
  let '(fm1, wd1) := _load_known_faces fm0 wd in
  let '(fm2, wd2) := _load_persistent_encodings fm1 wd1 in
  let '(fm3, wd3) := _remove_duplicate_encodings fm2 wd2 in
  (fm3, logger INFO ("Refreshed faces: " ++ pretty (length (known_face_names fm3))
                       ++ " total")%string wd3).

(** [register_unknown_face]; the images are uint8 already, so the two
    [dtype] tests are not taken. A library call that raises lands in
    the handler at the end of the function. *)
Definition register_unknown_face (fm : t) (wd : World) (io : IO)
    (face_crop : Image) (detection_hash : string) (name : string)
    : t * World * bool :=
  let raised :=
    (fm, logger ERROR ("Error registering unknown face: " ++ exc_text io)%string wd, false) in
  if PyStr.is_empty name || PyStr.is_empty (PyStr.strip name) then
    (fm, logger ERROR "Invalid name provided for registration" wd, false)
  else
    let name := PyStr.strip name in
    if decide (name ∈ known_face_names fm) then
      (fm, logger WARNING ("Name '" ++ name
                             ++ "' already exists, cannot register duplicate")%string wd,
       false)
    else
      match Np.cvtColor_BGR2RGB face_crop with
      | None => raised
      | Some rgb_face =>
          match face_encodings rgb_face with
          | [] => (fm, logger ERROR "Could not generate encoding for the face crop" wd, false)
          | face_encoding :: _ =>
              let image_filename := (name ++ "_" ++ strftime_now io ++ ".jpg")%string in
              let image_path := OsPath.join (faces_dir fm) image_filename in
              match imwrite_outcome io with
              | ImwriteRaises => raised
              | NotWritten =>
                  (fm, logger ERROR ("Failed to save face image to " ++ image_path)%string wd,
                   false)
              | Written reloads_as =>
                  let wd1 :=
                    {| listing := listing_after_imwrite wd io image_filename reloads_as;
                       encodings_pkl := encodings_pkl wd;
                       log := log wd |} in
                  let fm1 :=
                    with_registry fm (known_face_encodings fm ++ [face_encoding])
                                  (known_face_names fm ++ [name])
                                  (<[name := face_crop]> (known_face_images fm)) in
                  let '(wd2, _) := _save_persistent_encodings fm1 wd1 io in
                  (fm1, logger INFO ("Successfully registered '" ++ name
                                       ++ "' as known face with image: "
                                       ++ image_filename)%string wd2, true)
              end
          end
      end.

Definition get_face_encodings (fm : t) : list FaceEncoding := known_face_encodings fm.
Definition get_face_names (fm : t) : list string := known_face_names fm.

End WithFaceLib.

(** [save_unknown_face]: what [cv2.imwrite] returns is not looked at;
    only an exception makes the result [None]. *)
Definition save_unknown_face (fm : t) (wd : World) (io : IO)
    (face_crop : Image) (detection_hash : string) : World * option string :=
  let filename :=
    ("unknown_" ++ strftime_now io ++ "_" ++ PyStr.take 8 detection_hash ++ ".jpg")%string in
  let filepath := OsPath.join (unknowns_dir fm) filename in
  match imwrite_outcome io with
  | ImwriteRaises =>
      (logger ERROR ("Error saving unknown face: " ++ exc_text io)%string wd, None)
  | Written _ | NotWritten =>
      (logger INFO ("Saved unknown face: " ++ filename)%string wd, Some filepath)
  end.

(** What a call of [get_face_thumbnail] comes to: [None] for a name
    without image, the resized image, or the exception of [cv2.resize],
    which the function does not catch. *)
Inductive Thumbnail : Type :=
| NoThumbnail
| ResizeRaises
| Resized (thumbnail : Image).

Section WithResize.
(** [cv2.resize(image, size)]; [None] when OpenCV raises. *)
Variable resize : Image -> Z * Z -> option Image.

Definition get_face_thumbnail (fm : t) (name : string) (size : Z * Z) : Thumbnail :=
  match known_face_images fm !! name with
  | Some image =>
      match resize image size with
      | Some thumbnail => Resized thumbnail
      | None => ResizeRaises
      end
  | None => NoThumbnail
  end.

End WithResize.

(** [get_known_faces_summary] *)
Record Summary : Type := mkSummary {
  total_faces : nat;
  face_names : list string;
  encodings_count : nat;
}.

Definition get_known_faces_summary (fm : t) : Summary :=
  {| total_faces := length (known_face_names fm);
     face_names := known_face_names fm;
     encodings_count := length (known_face_encodings fm) |}.

End FaceManager.

(** ** workers.py: [CameraWorker] *)

Module CameraWorker.

Record t : Type := mk {
  camera_index : Z;
  running : bool;
  frame_skip : Z;
}.

Inductive Signal : Type :=
| frame_ready (frame : Image)
| camera_error (msg : string)
| camera_status (msg : string).

(** [__init__] *)
Definition init (index : Z) : t :=
  {| camera_index := index; running := false; frame_skip := 1 |}.

Definition set_camera_index (w : t) (index : Z) : t :=
  {| camera_index := index; running := running w; frame_skip := frame_skip w |}.

(** [max(1, skip)] *)
Definition set_frame_skip (w : t) (skip : Z) : t :=
  {| camera_index := camera_index w; running := running w;
     frame_skip := if 1 <? skip then skip else 1 |}.

Definition set_running (w : t) (b : bool) : t :=
  {| camera_index := camera_index w; running := b; frame_skip := frame_skip w |}.

(** What happens while [run] loops: the capture returns a frame or fails,
    or the GUI thread calls [set_frame_skip] or [stop] between two passes. *)
Inductive Event : Type :=
| Read (frame : option Image)
| SetFrameSkip (skip : Z)
| Stop.

(** How far the loop got on the events given: still looping, left because
    [running] was false, or left by the [ZeroDivisionError] of
    [frame_count % self.frame_skip]. *)
Inductive Exit : Type := Looping | Left | Raised.

(** The [while self.running] loop; [frame_count] is its local counter. *)
Fixpoint loop (w : t) (frame_count : Z) (evs : list Event) : t * list Signal * Exit :=
  match evs with
  | [] => (w, [], if running w then Looping else Left)
  | ev :: evs' =>
      if negb (running w) then (w, [], Left)
      else
        match ev with
        | SetFrameSkip skip => loop (set_frame_skip w skip) frame_count evs'
        | Stop => loop (set_running w false) frame_count evs'
        | Read None =>
            let '(w', out, ex) := loop w frame_count evs' in
            (w', camera_error "Failed to read frame" :: out, ex)
        | Read (Some frame) =>
            if frame_skip w =? 0 then (w, [], Raised)
            else
              let '(w', out, ex) := loop w (frame_count + 1) evs' in
              (w', (if frame_count mod frame_skip w =? 0 then [frame_ready frame] else [])
                   ++ out, ex)
        end
  end.

(** [run]: [opens] tells whether the configured device opens, [opens_0]
    whether device 0 does; [zero_division] is the text of Python's error. *)
Definition run (w : t) (opens opens_0 : bool) (zero_division : string)
    (evs : list Event) : t * list Signal :=
  if opens || opens_0 then
    let '(w', out, ex) := loop (set_running w true) 0 evs in
    (w', camera_status "Camera started successfully" :: out
         ++ match ex with
            | Looping => []
            | Left => [camera_status "Camera stopped"]
            | Raised => [camera_error ("Camera error: " ++ zero_division)%string;
                         camera_status "Camera stopped"]
            end)
  else
    (w, [camera_error "Camera error: Failed to open camera"; camera_status "Camera stopped"]).

Definition frames (out : list Signal) : list Image :=
  flat_map (fun sg => match sg with frame_ready f => [f] | _ => [] end) out.

Definition errors (out : list Signal) : list string :=
  flat_map (fun sg => match sg with camera_error m => [m] | _ => [] end) out.

(** The frames the capture delivered, in order. *)
Definition frames_read (evs : list Event) : list Image :=
  flat_map (fun ev => match ev with Read (Some f) => [f] | _ => [] end) evs.

Definition failed_reads (evs : list Event) : nat :=
  length (List.filter (fun ev => match ev with Read None => true | _ => false end) evs).

End CameraWorker.

(** ** Predicates used in the statements *)

Module Spec.
Import DetectionWorker.

Definition known_names (ds : list Detection) : list string :=
  List.map name (List.filter (fun d => String.eqb (type d) "known") ds).

Definition unknown_hashes (ds : list Detection) : list string :=
  List.map detection_hash (List.filter (fun d => String.eqb (type d) "unknown") ds).

(** The strings of [l] are pairwise distinct, none was in [S0], and [S1]
    is [S0] with them added. *)
Definition fresh_run (S0 S1 : gset string) (l : list string) : Prop :=
  NoDup l ∧ (∀ x, x ∈ l → x ∉ S0) ∧ S1 = S0 ∪ list_to_set l.

(** What a stretch of one session may emit when it takes the worker
    from [w] to [w']. *)
Definition emits (w w' : t) (ds : list Detection) : Prop :=
  fresh_run (session_seen_known w) (session_seen_known w') (known_names ds)
  ∧ fresh_run (session_seen_unknown_hashes w) (session_seen_unknown_hashes w')
              (unknown_hashes ds).

Definition option_list_of (r : option Detection) : list Detection :=
  match r with Some d => [d] | None => [] end.

Definition result_detections (r : option Result) : list Detection :=
  match r with Some res => detections res | None => [] end.

Definition no_reset (evs : list Event) : Prop :=
  Forall (fun ev => ev ≠ ResetSession) evs.

(** [ds !! i] is the least entry of [ds] and the first to be so. *)
Definition first_least (ds : list Q) (i : nat) (d : Q) : Prop :=
  ds !! i = Some d
  ∧ (∀ j d', ds !! j = Some d' → (d <= d')%Q)
  ∧ (∀ j d', (j < i)%nat → ds !! j = Some d' → (d < d')%Q).



(** The frame awaiting processing: what the slot holds while the worker
    thread is at the check; once a frame is handed over, nothing. *)
Definition slot `{FaceLib} (s : Sched) : list Image :=
  match pc s with
  | AtCheck => match pending_frame (worker s) with Some f => [f] | None => [] end
  | AtStamp => []
  end.

(** The last frame of [fs], or [p] when there is none. *)
Fixpoint latest (p : option Image) (fs : list Image) : option Image :=
  match fs with
  | [] => p
  | f :: fs' => latest (Some f) fs'
  end.

Definition at_check (p : Pc) : bool :=
  match p with AtCheck => true | AtStamp => false end.


(** [face_recognition.face_distance(self.known_face_encodings, enc)] *)
Definition distances `{FaceLib} (w : t) (enc : FaceEncoding) : list Q :=
  List.map (fun k => face_distance k enc) (known_face_encodings w).


(** Empty, or made of whitespace only. *)
Definition whitespace_only (s : string) : Prop :=
  Forall (fun c => PyStr.is_space c = true) (list_ascii_of_string s).

(** No encoding comes out of the crop: OpenCV refuses it, or no face is
    found in it. *)
Definition no_encoding `{FaceLib} (face_crop : Image) : Prop :=
  match Np.cvtColor_BGR2RGB face_crop with
  | None => True
  | Some rgb_face => face_encodings rgb_face = []
  end.

(** De-duplication by name of two parallel lists, the last entry of a
    name winning, the order of the survivors kept. *)
Fixpoint last_wins (ns : list string) (es : list FaceEncoding)
    : list string * list FaceEncoding :=
  match ns, es with
  | n :: ns', e :: es' =>
      let '(un, ue) := last_wins ns' es' in
      if decide (n ∈ ns') then (un, ue) else (n :: un, e :: ue)
  | _, _ => ([], [])
  end.

Definition registry_unchanged (fm fm' : FaceManager.t) : Prop :=
  FaceManager.known_face_encodings fm' = FaceManager.known_face_encodings fm
  ∧ FaceManager.known_face_names fm' = FaceManager.known_face_names fm
  ∧ FaceManager.known_face_images fm' = FaceManager.known_face_images fm.

(** What an entry of a result looks like for a frame processed against
    the registered [names]: the crop is the box cut out of the frame; a known
    entry carries a registered name and "Present", an unknown one "Unknown"
    twice; the hash is that of some encoding under the entry's name. *)
Definition well_formed (names : list string) (frame : Image) (d : Detection) : Prop :=
  face_crop d = Np.crop frame (face_location d)
  ∧ ((type d = "known" ∧ name d ∈ names ∧ status d = "Present")
     ∨ (type d = "unknown" ∧ name d = "Unknown" ∧ status d = "Unknown"))
  ∧ ∃ enc, detection_hash d = _generate_detection_hash enc (name d).

(** All readings of the clock are positive: the time is after 1970. *)
Definition positive_clock (evs : list Event) : Prop :=
  Forall (fun t => (0 < t)%Q) (clock_readings evs).

(** Whether a processing is in flight, as a number. *)
Definition in_flight (s : Sched) : nat :=
  if at_check (pc s) then 0%nat else 1%nat.

(** Processings that have been stamped: those started, less the one in
    flight. *)
Definition completed (s : Sched) (os : list Output) : nat :=
  (length os - in_flight s)%nat.

(** The two lists of the registry go together: as many names as
    encodings. *)
Definition parallel (fm : FaceManager.t) : Prop :=
  length (FaceManager.known_face_names fm) = length (FaceManager.known_face_encodings fm).

(** The same of the snapshot, where there is one. *)
Definition snapshot_parallel (wd : FaceManager.World) : Prop :=
  match FaceManager.encodings_pkl wd with
  | FaceManager.Pickled data =>
      length (FaceManager.names data) = length (FaceManager.encodings data)
  | _ => True
  end.

(** A file of the faces directory that [_load_known_faces] takes in: a
    regular file of a supported extension, that can be decoded and shows a
    face; and the encoding taken from it. *)
Definition first_encoding `{FaceLib} (e : FaceManager.DirEntry) : option FaceEncoding :=
  if FaceManager.is_file e
     && FaceManager.supported_ext
          (OsPath.lower (snd (OsPath.splitext (FaceManager.filename e))))
  then match FaceManager.loaded e with
       | Some image => head (face_encodings image)
       | None => None
       end
  else None.

Definition usable `{FaceLib} (e : FaceManager.DirEntry) : bool :=
  match first_encoding e with Some _ => true | None => false end.

Definition is_hex_digit (c : ascii) : Prop :=
  In c (list_ascii_of_string "0123456789abcdef").


(** There is no snapshot to read: the file is absent or cannot be
    unpickled. *)
Definition no_snapshot (wd : FaceManager.World) : Prop :=
  match FaceManager.encodings_pkl wd with
  | FaceManager.Pickled _ => False
  | _ => True
  end.

(** The capture only delivers or fails: nobody calls [set_frame_skip] or
    [stop] meanwhile. *)
Definition only_reads (evs : list CameraWorker.Event) : Prop :=
  Forall (fun ev => match ev with CameraWorker.Read _ => True | _ => False end) evs.


End Spec.

(** ** A test double of the face library, for the examples

    An image shows one face per row, the box of row [r] is
    [(r, 1, r + 1, 0)] in the small frame, its encoding the blue channel of the row's first
    pixel, and the distance of two encodings a tenth of the difference of
    their first components. *)

Module TestLib.

Definition row_encoding (row : list Pixel) : FaceEncoding :=
  match row with
  | (b, _, _) :: _ => [b]
  | [] => []
  end.

Definition row_locations (img : Image) : list Location :=
  List.map (fun r => (Z.of_nat r, 1, Z.of_nat r + 1, 0)) (seq 0 (length img)).

Definition distance (a b : FaceEncoding) : Q :=
  Z.abs (nth 0 a 0 - nth 0 b 0) # 10.

Definition lib : FaceLib := {|
  resize_quarter := fun img => img;
  face_locations := row_locations;
  face_encodings_at := fun img locs => firstn (length locs) (List.map row_encoding img);
  face_encodings := fun img => List.map row_encoding img;
  face_distance := distance;
|}.

(** As [lib], every distance being [d]. *)
Definition lib_at (d : Q) : FaceLib := {|
  resize_quarter := fun img => img;
  face_locations := row_locations;
  face_encodings_at := fun img locs => firstn (length locs) (List.map row_encoding img);
  face_encodings := fun img => List.map row_encoding img;
  face_distance := fun _ _ => d;
|}.

Definition face (b : Z) : list Pixel := [(b, 0, 0); (b, 0, 0); (b, 0, 0); (b, 0, 0)].

(** A worker that knows Bob (encoding 1) and Eve (encoding 5). *)
Definition worker : DetectionWorker.t :=
  DetectionWorker.init [[1]; [5]] ["Bob"; "Eve"].

Definition box : Location := (0, 4, 1, 0).

(** A frame showing one face, of encoding 2, and that encoding. *)
Definition frame : Image := [face 2].
Definition probe : FaceEncoding := [2].

(** The same frame queued and processed twice, the clock read at the
    check and at the stamp of each pass. *)
Definition trace : list DetectionWorker.Event :=
  [DetectionWorker.Queue frame; DetectionWorker.Clock 10; DetectionWorker.Clock 11;
   DetectionWorker.Queue frame; DetectionWorker.Clock 13; DetectionWorker.Clock 14].

Definition start : DetectionWorker.Sched :=
  DetectionWorker.run_start worker.

(** As [trace], with the session reset between the two passes. *)
Definition trace_with_reset : list DetectionWorker.Event :=
  [DetectionWorker.Queue frame; DetectionWorker.Clock 10; DetectionWorker.Clock 11;
   DetectionWorker.ResetSession;
   DetectionWorker.Queue frame; DetectionWorker.Clock 13; DetectionWorker.Clock 14].

(** Two frames queued before the loop comes round, a third while the
    second is being processed. *)
Definition trace_burst : list DetectionWorker.Event :=
  [DetectionWorker.Queue [face 7]; DetectionWorker.Queue [face 2];
   DetectionWorker.Clock 10; DetectionWorker.Queue [face 5]; DetectionWorker.Clock 11;
   DetectionWorker.Clock 14].

(** Two arrays of three float64 that differ in the last: 0.5, -0.125, 1.0
    and 0.5, -0.125, 2.0. *)
Definition enc_a : FaceEncoding :=
  [0x3FE0000000000000; 0xBFC0000000000000; 0x3FF0000000000000].
Definition enc_b : FaceEncoding :=
  [0x3FE0000000000000; 0xBFC0000000000000; 0x4000000000000000].

(** A registry that knows Bob, and the world around it. *)
Definition manager : FaceManager.t :=
  {| FaceManager.faces_dir := "faces"; FaceManager.unknowns_dir := "unknowns";
     FaceManager.known_face_encodings := [[1]];
     FaceManager.known_face_names := ["Bob"];
     FaceManager.known_face_images := {["Bob" := [face 1]]} |}.

Definition world : FaceManager.World :=
  {| FaceManager.listing :=
       [{| FaceManager.filename := "Bob_20240101_120000.jpg"; FaceManager.is_file := true;
           FaceManager.loaded := Some [face 1] |}];
     FaceManager.encodings_pkl := FaceManager.Absent;
     FaceManager.log := [] |}.

(** The image is written; the snapshot is not. *)
Definition io_save_fails : FaceManager.IO :=
  {| FaceManager.strftime_now := "20240102_090000";
     FaceManager.isoformat_now := "2024-01-02T09:00:00";
     FaceManager.imwrite_outcome := FaceManager.Written (Some [face 2]);
     FaceManager.lands_in_faces_dir := false;
     FaceManager.save_outcome := FaceManager.SaveRaises FaceManager.Absent;
     FaceManager.exc_text := "[Errno 13] Permission denied: 'encodings.pkl'" |}.

(** Everything is written. *)
Definition io_ok : FaceManager.IO :=
  {| FaceManager.strftime_now := "20240102_090000";
     FaceManager.isoformat_now := "2024-01-02T09:00:00";
     FaceManager.imwrite_outcome := FaceManager.Written (Some [face 2]);
     FaceManager.lands_in_faces_dir := false;
     FaceManager.save_outcome := FaceManager.Saved;
     FaceManager.exc_text := "" |}.

(** The image cannot be written. *)
Definition io_imwrite_fails : FaceManager.IO :=
  {| FaceManager.strftime_now := "20240102_090000";
     FaceManager.isoformat_now := "2024-01-02T09:00:00";
     FaceManager.imwrite_outcome := FaceManager.NotWritten;
     FaceManager.lands_in_faces_dir := false;
     FaceManager.save_outcome := FaceManager.Saved;
     FaceManager.exc_text := "" |}.

(** A faces directory with one picture of Alice, and a snapshot that
    only knows Bob. *)
Definition world_alice_and_snapshot : FaceManager.World :=
  {| FaceManager.listing :=
       [{| FaceManager.filename := "alice.jpg"; FaceManager.is_file := true;
           FaceManager.loaded := Some [face 3] |}];
     FaceManager.encodings_pkl :=
       FaceManager.Pickled {| FaceManager.encodings := [[7]];
                              FaceManager.names := ["bob"];
                              FaceManager.timestamp := "2024-01-01T12:00:00" |};
     FaceManager.log := [] |}.

(** A faces directory with two pictures of Alice and no snapshot. *)
Definition world_two_alices : FaceManager.World :=
  {| FaceManager.listing :=
       [{| FaceManager.filename := "alice_20240101_120000.jpg"; FaceManager.is_file := true;
           FaceManager.loaded := Some [face 3] |};
        {| FaceManager.filename := "alice_20240102_120000.jpg"; FaceManager.is_file := true;
           FaceManager.loaded := Some [face 4] |}];
     FaceManager.encodings_pkl := FaceManager.Absent;
     FaceManager.log := [] |}.

(** A camera that forwards every second frame, and what its capture
    delivers: three frames with a failed read in between. *)
Definition camera : CameraWorker.t :=
  CameraWorker.set_frame_skip (CameraWorker.init 0) 2.

Definition reads : list CameraWorker.Event :=
  [CameraWorker.Read (Some [face 1]); CameraWorker.Read None;
   CameraWorker.Read (Some [face 2]); CameraWorker.Read (Some [face 3])].

End TestLib.

(** * Properties *)

(** ** Arithmetic and list helpers *)

Lemma Qltb_lt (x y : Q) : Np.Qltb x y = true ↔ (x < y)%Q.
Proof.
  unfold Np.Qltb. rewrite negb_true_iff. split.
  - intros Hb. apply Qnot_le_lt. intros Hle.
    apply Qle_bool_iff in Hle. congruence.
  - intros Hlt. destruct (Qle_bool y x) eqn:E; [|reflexivity].
    apply Qle_bool_iff in E. lra.
Qed.

Lemma Qltb_ge (x y : Q) : Np.Qltb x y = false ↔ (y <= x)%Q.
Proof.
  unfold Np.Qltb. rewrite negb_false_iff. apply Qle_bool_iff.
Qed.

Lemma nth_error_lookup {A : Type} (l : list A) (i : nat) : nth_error l i = l !! i.
Proof.
  revert i. induction l as [|x l IH]; intros [|i]; simpl; auto.
Qed.

Lemma take_hex (k : nat) (bs : list Z) :
  PyStr.take (2 * k) (PyStr.hex bs) = PyStr.hex (firstn k bs).
Proof.
  revert bs. induction k as [|k IH]; intros bs.
  - reflexivity.
  - destruct bs as [|b bs]; [reflexivity|].
    replace (2 * S k)%nat with (S (S (2 * k))) by lia.
    cbn [PyStr.hex PyStr.take firstn]. rewrite IH. reflexivity.
Qed.

(** ** [np.argmin] returns the first least entry *)

Lemma argmin_from_spec (ds pre : list Q) (bi : nat) (b : Q) :
  Spec.first_least pre bi b →
  ∃ d, Spec.first_least (pre ++ ds) (Np.argmin_from bi b (length pre) ds) d.
Proof.
  revert pre bi b. induction ds as [|d ds IH]; intros pre bi b (Hb & Hle & Hlt).
  - exists b. rewrite app_nil_r. repeat split; assumption.
  - cbn [Np.argmin_from].
    assert (Hbi : (bi < length pre)%nat) by (eapply lookup_lt_Some; eassumption).
    replace (pre ++ d :: ds) with ((pre ++ [d]) ++ ds) by (rewrite <- app_assoc; reflexivity).
    replace (S (length pre)) with (length (pre ++ [d])) by (rewrite length_app; simpl; lia).
    destruct (Np.Qltb d b) eqn:E.
    + apply Qltb_lt in E. apply IH. repeat split.
      * rewrite lookup_app_r by lia. replace (length pre - length pre)%nat with 0%nat by lia.
        reflexivity.
      * intros j d' Hj. destruct (decide (j < length pre)%nat) as [Hjl|Hjl].
        -- rewrite lookup_app_l in Hj by assumption. specialize (Hle j d' Hj). lra.
        -- rewrite lookup_app_r in Hj by lia.
           destruct (j - length pre)%nat; simpl in Hj; [|discriminate].
           injection Hj as <-. lra.
      * intros j d' Hjl Hj. rewrite lookup_app_l in Hj by lia. specialize (Hle j d' Hj). lra.
    + apply Qltb_ge in E. apply IH. repeat split.
      * rewrite lookup_app_l by assumption. assumption.
      * intros j d' Hj. destruct (decide (j < length pre)%nat) as [Hjl|Hjl].
        -- rewrite lookup_app_l in Hj by assumption. eauto.
        -- rewrite lookup_app_r in Hj by lia.
           destruct (j - length pre)%nat; simpl in Hj; [|discriminate].
           injection Hj as <-. assumption.
      * intros j d' Hjl Hj. rewrite lookup_app_l in Hj by lia. eauto.
Qed.

Lemma argmin_spec (d0 : Q) (ds : list Q) :
  ∃ i d, Np.argmin (d0 :: ds) = Some i ∧ Spec.first_least (d0 :: ds) i d.
Proof.
  destruct (argmin_from_spec ds [d0] 0 d0) as [d Hd].
  - repeat split.
    + intros [|j] d' Hj; simpl in Hj; [injection Hj as <-; lra | discriminate].
    + intros j d' Hj. lia.
  - exists (Np.argmin_from 0 d0 1 ds), d. split; [reflexivity | exact Hd].
Qed.

Lemma first_least_unique (ds : list Q) (i j : nat) (d e : Q) :
  Spec.first_least ds i d → Spec.first_least ds j e → i = j.
Proof.
  intros (Hi & Hile & Hilt) (Hj & Hjle & Hjlt).
  destruct (Nat.lt_trichotomy i j) as [Hlt | [Heq | Hgt]]; [|assumption|].
  - specialize (Hjlt i d Hlt Hi). specialize (Hile j e Hj). lra.
  - specialize (Hilt j e Hgt Hj). specialize (Hjle i d Hi). lra.
Qed.

(** ** Classification of one face *)

Section Classification.
Context `{FaceLib}.
Import DetectionWorker.

Lemma known_face_seen (w : t) (n : string) crop loc enc :
  n ∈ session_seen_known w → _process_known_face w n crop loc enc = (w, None).
Proof.
  intros Hin. unfold _process_known_face. destruct (decide _); [reflexivity | contradiction].
Qed.

Lemma known_face_fresh (w : t) (n : string) crop loc enc :
  n ∉ session_seen_known w →
  _process_known_face w n crop loc enc =
    (see_known w n,
     Some {| type := "known"; name := n; face_crop := crop; face_location := loc;
             detection_hash := _generate_detection_hash enc n; status := "Present" |}).
Proof.
  intros Hin. unfold _process_known_face. destruct (decide _); [contradiction | reflexivity].
Qed.

Lemma unknown_face_seen (w : t) crop loc enc :
  _generate_detection_hash enc "Unknown" ∈ session_seen_unknown_hashes w →
  _process_unknown_face w crop loc enc = (w, None).
Proof.
  intros Hin. unfold _process_unknown_face. destruct (decide _); [reflexivity | contradiction].
Qed.

Lemma unknown_face_fresh (w : t) crop loc enc :
  _generate_detection_hash enc "Unknown" ∉ session_seen_unknown_hashes w →
  _process_unknown_face w crop loc enc =
    (see_unknown w (_generate_detection_hash enc "Unknown"),
     Some {| type := "unknown"; name := "Unknown"; face_crop := crop; face_location := loc;
             detection_hash := _generate_detection_hash enc "Unknown";
             status := "Unknown" |}).
Proof.
  intros Hin. unfold _process_unknown_face. destruct (decide _); [contradiction | reflexivity].
Qed.

Lemma single_face_empty (w : t) enc loc frame :
  known_face_encodings w = [] →
  _process_single_face w enc loc frame = _process_unknown_face w (Np.crop frame loc) loc enc.
Proof.
  intros He. unfold _process_single_face. rewrite He. reflexivity.
Qed.

Lemma single_face_nearest (w : t) enc loc frame (i : nat) (d : Q) (n : string) :
  Spec.first_least (Spec.distances w enc) i d →
  known_face_names w !! i = Some n →
  _process_single_face w enc loc frame =
    if Np.Qltb d DetectionWorker.threshold
    then _process_known_face w n (Np.crop frame loc) loc enc
    else _process_unknown_face w (Np.crop frame loc) loc enc.
Proof.
  intros Hfl Hn. unfold _process_single_face. fold (Spec.distances w enc).
  assert (Hne : Spec.distances w enc ≠ []).
  { destruct Hfl as (Hi & _). intros E. rewrite E in Hi. discriminate. }
  destruct (known_face_encodings w) as [|k ks] eqn:Ek.
  { exfalso. apply Hne. unfold Spec.distances. rewrite Ek. reflexivity. }
  cbn [length Nat.eqb].
  destruct (Spec.distances w enc) as [|d0 ds] eqn:Ed; [congruence|].
  destruct (argmin_spec d0 ds) as (i0 & d1 & Harg & Hfl0).
  rewrite Harg.
  assert (i0 = i) as -> by (eapply first_least_unique; eassumption).
  rewrite nth_error_lookup. destruct Hfl as (Hi & _). rewrite Hi.
  rewrite nth_error_lookup, Hn. reflexivity.
Qed.

End Classification.

(** C3: with an empty registry a face is handled as unknown; otherwise the
    distance to every known encoding is taken, the first least one selected,
    and the face is handled as known under the name at that index exactly
    when that least distance is strictly below the float 0.6 ([threshold]),
    as unknown otherwise.
    The registry is a list of identities: as many names as encodings. *)
Theorem single_face_classification `{FaceLib} (w : DetectionWorker.t)
    (enc : FaceEncoding) (loc : Location) (frame : Image) :
  length (DetectionWorker.known_face_encodings w)
    = length (DetectionWorker.known_face_names w) →
  match DetectionWorker.known_face_encodings w with
  | [] =>
      DetectionWorker._process_single_face w enc loc frame
      = DetectionWorker._process_unknown_face w (Np.crop frame loc) loc enc
  | _ :: _ =>
      ∃ (i : nat) (k : FaceEncoding) (n : string),
        DetectionWorker.known_face_encodings w !! i = Some k
        ∧ DetectionWorker.known_face_names w !! i = Some n
        ∧ (∀ k', k' ∈ DetectionWorker.known_face_encodings w →
                 (face_distance k enc <= face_distance k' enc)%Q)
        ∧ (((face_distance k enc < DetectionWorker.threshold)%Q
            ∧ DetectionWorker._process_single_face w enc loc frame
              = DetectionWorker._process_known_face w n (Np.crop frame loc) loc enc)
           ∨ ((DetectionWorker.threshold <= face_distance k enc)%Q
              ∧ DetectionWorker._process_single_face w enc loc frame
                = DetectionWorker._process_unknown_face w (Np.crop frame loc) loc enc))
  end.
Proof.
  intros Hlen.
  destruct (DetectionWorker.known_face_encodings w) as [|k0 ks] eqn:Ek.
  - apply single_face_empty. assumption.
  - destruct (argmin_spec (face_distance k0 enc)
                (List.map (fun k => face_distance k enc) ks)) as (i & d & _ & Hfl).
    assert (Hds : Spec.distances w enc
                  = face_distance k0 enc :: List.map (fun k => face_distance k enc) ks).
    { unfold Spec.distances. rewrite Ek. reflexivity. }
    rewrite <- Hds in Hfl.
    pose proof Hfl as (Hi & Hle & _).
    assert (Hil : (i < length (Spec.distances w enc))%nat) by (eapply lookup_lt_Some; eassumption).
    unfold Spec.distances in Hil. rewrite length_map, Ek in Hil.
    destruct (lookup_lt_is_Some_2 (k0 :: ks) i Hil) as [k Hk].
    destruct (lookup_lt_is_Some_2 (DetectionWorker.known_face_names w) i) as [n Hn].
    { rewrite <- Hlen. assumption. }
    assert (Hd : d = face_distance k enc).
    { rewrite Hds in Hi.
      change (face_distance k0 enc :: List.map (fun k => face_distance k enc) ks)
        with ((fun k => face_distance k enc) <$> (k0 :: ks)) in Hi.
      rewrite list_lookup_fmap, Hk in Hi. simpl in Hi. congruence. }
    exists i, k, n. split; [assumption|]. split; [assumption|]. split.
    + intros k' Hk'. apply list_elem_of_lookup in Hk' as [j Hj].
      rewrite <- Hd. apply (Hle j). rewrite Hds.
      change (face_distance k0 enc :: List.map (fun k => face_distance k enc) ks)
        with ((fun k => face_distance k enc) <$> (k0 :: ks)).
      rewrite list_lookup_fmap, Hj. reflexivity.
    + rewrite (single_face_nearest w enc loc frame i d n Hfl Hn). rewrite <- Hd.
      destruct (Np.Qltb d DetectionWorker.threshold) eqn:E.
      * left. apply Qltb_lt in E. split; [assumption | reflexivity].
      * right. apply Qltb_ge in E. split; [assumption | reflexivity].
Qed.

Lemma single_face_classification_witness :
  ∃ (i : nat) (k : FaceEncoding) (n : string),
    [[1]; [5]] !! i = Some k
    ∧ ["Bob"; "Eve"] !! i = Some n
    ∧ (∀ k', k' ∈ [[1]; [5]] → (TestLib.distance k TestLib.probe <= TestLib.distance k' TestLib.probe)%Q)
    ∧ (((TestLib.distance k TestLib.probe < DetectionWorker.threshold)%Q
        ∧ DetectionWorker._process_single_face (H := TestLib.lib) TestLib.worker TestLib.probe TestLib.box TestLib.frame
          = DetectionWorker._process_known_face TestLib.worker n
              (Np.crop TestLib.frame TestLib.box) TestLib.box TestLib.probe)
       ∨ ((DetectionWorker.threshold <= TestLib.distance k TestLib.probe)%Q
          ∧ DetectionWorker._process_single_face (H := TestLib.lib) TestLib.worker TestLib.probe TestLib.box TestLib.frame
            = DetectionWorker._process_unknown_face TestLib.worker
                (Np.crop TestLib.frame TestLib.box) TestLib.box TestLib.probe)).
Proof.
  exact (single_face_classification (H := TestLib.lib) TestLib.worker TestLib.probe TestLib.box TestLib.frame eq_refl).
Defined.

(** The threshold is a float64, the one nearest to 6/10: it lies below
    6/10, its successor above, and further away. *)
Lemma threshold_is_nearest_float64 :
  (DetectionWorker.threshold == 5404319552844595 / 2 ^ 53)%Q
  ∧ 2 ^ 52 <= 5404319552844595 < 2 ^ 53
  ∧ (DetectionWorker.threshold < 6 # 10)%Q
  ∧ (6 # 10 < 5404319552844596 / 2 ^ 53)%Q
  ∧ ((6 # 10) - DetectionWorker.threshold < 5404319552844596 / 2 ^ 53 - (6 # 10))%Q.
Proof. repeat split; try reflexivity; discriminate. Qed.

(** A nearest distance that is the float 0.6 itself is not below the
    threshold: the face is unknown. *)
Example distance_at_threshold_is_unknown :
  DetectionWorker._process_single_face (H := TestLib.lib_at DetectionWorker.threshold)
    TestLib.worker TestLib.probe TestLib.box TestLib.frame
  = DetectionWorker._process_unknown_face TestLib.worker
      (Np.crop TestLib.frame TestLib.box) TestLib.box TestLib.probe.
Proof. reflexivity. Qed.

(** ** The same known face fed twice *)

(** C2: a face whose nearest registered identity is [n], at a distance
    below the float 0.6 ([threshold]), and which the session has not
    reported yet, yields one event for [n] on the first feed and none on the
    second; [reset_session] empties both session sets, and a feed after it
    yields an event for [n] again. *)
Theorem same_known_face_twice `{FaceLib} (w : DetectionWorker.t) (enc : FaceEncoding)
    (loc loc' : Location) (frame frame' : Image) (i : nat) (d : Q) (n : string) :
  Spec.first_least (Spec.distances w enc) i d →
  DetectionWorker.known_face_names w !! i = Some n →
  (d < DetectionWorker.threshold)%Q →
  n ∉ DetectionWorker.session_seen_known w →
  ∃ (w1 : DetectionWorker.t) (d1 : DetectionWorker.Detection),
    DetectionWorker._process_single_face w enc loc frame = (w1, Some d1)
    ∧ DetectionWorker.type d1 = "known" ∧ DetectionWorker.name d1 = n
    ∧ DetectionWorker._process_single_face w1 enc loc' frame' = (w1, None)
    ∧ DetectionWorker.session_seen_known (DetectionWorker.reset_session w1) = ∅
    ∧ DetectionWorker.session_seen_unknown_hashes (DetectionWorker.reset_session w1) = ∅
    ∧ ∃ (w2 : DetectionWorker.t) (d2 : DetectionWorker.Detection),
        DetectionWorker._process_single_face (DetectionWorker.reset_session w1) enc loc' frame'
        = (w2, Some d2)
        ∧ DetectionWorker.type d2 = "known" ∧ DetectionWorker.name d2 = n.
Proof.
  intros Hfl Hn Hd Hfresh.
  apply Qltb_lt in Hd.
  eexists _, _. split.
  { rewrite (single_face_nearest w enc loc frame i d n Hfl Hn), Hd.
    apply known_face_fresh. assumption. }
  split; [reflexivity|]. split; [reflexivity|]. split.
  { rewrite (single_face_nearest (DetectionWorker.see_known w n) enc loc' frame' i d n Hfl Hn), Hd.
    apply known_face_seen. simpl. set_solver. }
  split; [reflexivity|]. split; [reflexivity|].
  eexists _, _. split.
  { rewrite (single_face_nearest (DetectionWorker.reset_session (DetectionWorker.see_known w n))
               enc loc' frame' i d n Hfl Hn), Hd.
    apply known_face_fresh. simpl. set_solver. }
  split; reflexivity.
Qed.

Lemma same_known_face_twice_witness :
  ∃ (w1 : DetectionWorker.t) (d1 : DetectionWorker.Detection),
    DetectionWorker._process_single_face (H := TestLib.lib) TestLib.worker TestLib.probe TestLib.box TestLib.frame
    = (w1, Some d1)
    ∧ DetectionWorker.type d1 = "known" ∧ DetectionWorker.name d1 = "Bob"
    ∧ DetectionWorker._process_single_face (H := TestLib.lib) w1 TestLib.probe TestLib.box TestLib.frame = (w1, None)
    ∧ DetectionWorker.session_seen_known (DetectionWorker.reset_session w1) = ∅
    ∧ DetectionWorker.session_seen_unknown_hashes (DetectionWorker.reset_session w1) = ∅
    ∧ ∃ (w2 : DetectionWorker.t) (d2 : DetectionWorker.Detection),
        DetectionWorker._process_single_face (H := TestLib.lib) (DetectionWorker.reset_session w1) TestLib.probe
          TestLib.box TestLib.frame
        = (w2, Some d2)
        ∧ DetectionWorker.type d2 = "known" ∧ DetectionWorker.name d2 = "Bob".
Proof.
  apply (same_known_face_twice (H := TestLib.lib) TestLib.worker TestLib.probe TestLib.box TestLib.box
           TestLib.frame TestLib.frame 0 (1 # 10) "Bob").
  - repeat split.
    + intros [|[|j]] d' Hj; simpl in Hj; try discriminate;
        injection Hj as <-; vm_compute; discriminate.
    + intros j d' Hj. lia.
  - reflexivity.
  - reflexivity.
  - simpl. set_solver.
Defined.

(** ** The detection hash *)

(** C7, as stated, fails: two encodings whose bytes differ share a hash. *)
Lemma detection_hash_collision :
  DetectionWorker._generate_detection_hash TestLib.enc_a "Unknown"
  = DetectionWorker._generate_detection_hash TestLib.enc_b "Unknown"
  ∧ Np.tobytes TestLib.enc_a ≠ Np.tobytes TestLib.enc_b.
Proof.
  split.
  - vm_compute. reflexivity.
  - vm_compute. discriminate.
Qed.

(** C7, amended: for a fixed name the detection hash depends on the first
    sixteen bytes of the encoding only; encodings that agree there have the
    same hash, whatever follows. *)
Theorem detection_hash_prefix (n : string) (e1 e2 : FaceEncoding) :
  firstn 16 (Np.tobytes e1) = firstn 16 (Np.tobytes e2) →
  DetectionWorker._generate_detection_hash e1 n
  = DetectionWorker._generate_detection_hash e2 n.
Proof.
  intros Hpre. unfold DetectionWorker._generate_detection_hash.
  change 32%nat with (2 * 16)%nat. rewrite !take_hex, Hpre. reflexivity.
Qed.

Lemma detection_hash_prefix_witness :
  DetectionWorker._generate_detection_hash TestLib.enc_a "Bob"
  = DetectionWorker._generate_detection_hash TestLib.enc_b "Bob".
Proof.
  apply (detection_hash_prefix "Bob" TestLib.enc_a TestLib.enc_b). reflexivity.
Defined.

Example detection_hash_unknown_value :
  DetectionWorker._generate_detection_hash TestLib.enc_a "Unknown"
  = "7de1e7aba197d83667937c342dd46c42".
Proof. vm_compute. reflexivity. Qed.

(** ** Deduplication within a session *)

(** Runs of fresh strings compose. *)

Lemma fresh_run_nil (S0 S1 : gset string) : S1 = S0 → Spec.fresh_run S0 S1 [].
Proof.
  intros ->. repeat split.
  - constructor.
  - intros x Hx. inversion Hx.
  - set_solver.
Qed.

Lemma fresh_run_one (S0 : gset string) (x : string) :
  x ∉ S0 → Spec.fresh_run S0 ({[x]} ∪ S0) [x].
Proof.
  intros Hx. repeat split.
  - apply NoDup_singleton.
  - intros y Hy. apply list_elem_of_singleton in Hy as ->. assumption.
  - set_solver.
Qed.

Lemma fresh_run_app (S0 S1 S2 : gset string) (l1 l2 : list string) :
  Spec.fresh_run S0 S1 l1 → Spec.fresh_run S1 S2 l2 → Spec.fresh_run S0 S2 (l1 ++ l2).
Proof.
  intros (Hnd1 & Hf1 & ->) (Hnd2 & Hf2 & ->). repeat split.
  - apply NoDup_app. repeat split; [assumption | | assumption].
    intros x Hx1 Hx2. apply (Hf2 x Hx2). set_solver.
  - intros x Hx. apply elem_of_app in Hx as [Hx|Hx]; [auto|].
    specialize (Hf2 x Hx). set_solver.
  - rewrite list_to_set_app_L. set_solver.
Qed.

Section Dedup.
Context `{FaceLib}.
Import DetectionWorker.

Lemma known_names_app (a b : list Detection) :
  Spec.known_names (a ++ b) = Spec.known_names a ++ Spec.known_names b.
Proof. unfold Spec.known_names. rewrite List.filter_app, List.map_app. reflexivity. Qed.

Lemma unknown_hashes_app (a b : list Detection) :
  Spec.unknown_hashes (a ++ b) = Spec.unknown_hashes a ++ Spec.unknown_hashes b.
Proof. unfold Spec.unknown_hashes. rewrite List.filter_app, List.map_app. reflexivity. Qed.

Lemma emits_same (w w' : t) :
  session_seen_known w' = session_seen_known w →
  session_seen_unknown_hashes w' = session_seen_unknown_hashes w →
  Spec.emits w w' [].
Proof. intros Hk Hu. split; apply fresh_run_nil; assumption. Qed.

Lemma emits_app (w0 w1 w2 : t) (a b : list Detection) :
  Spec.emits w0 w1 a → Spec.emits w1 w2 b → Spec.emits w0 w2 (a ++ b).
Proof.
  intros [Hk1 Hu1] [Hk2 Hu2]. split.
  - rewrite known_names_app. eapply fresh_run_app; eassumption.
  - rewrite unknown_hashes_app. eapply fresh_run_app; eassumption.
Qed.

Lemma known_face_emits (w : t) (n : string) crop loc enc :
  Spec.emits w (_process_known_face w n crop loc enc).1
             (Spec.option_list_of (_process_known_face w n crop loc enc).2).
Proof.
  unfold _process_known_face. destruct (decide _) as [Hin|Hin]; simpl.
  - apply emits_same; reflexivity.
  - split; simpl.
    + apply fresh_run_one. assumption.
    + apply fresh_run_nil. reflexivity.
Qed.

Lemma unknown_face_emits (w : t) crop loc enc :
  Spec.emits w (_process_unknown_face w crop loc enc).1
             (Spec.option_list_of (_process_unknown_face w crop loc enc).2).
Proof.
  unfold _process_unknown_face. destruct (decide _) as [Hin|Hin]; simpl.
  - apply emits_same; reflexivity.
  - split; simpl.
    + apply fresh_run_nil. reflexivity.
    + apply fresh_run_one. assumption.
Qed.

Lemma single_face_emits (w : t) enc loc frame :
  Spec.emits w (_process_single_face w enc loc frame).1
             (Spec.option_list_of (_process_single_face w enc loc frame).2).
Proof.
  unfold _process_single_face.
  destruct (length (known_face_encodings w) =? 0)%nat; [apply unknown_face_emits|].
  destruct (Np.argmin _) as [i|]; [|apply emits_same; reflexivity].
  destruct (nth_error _ i) as [d|]; [|apply emits_same; reflexivity].
  destruct (Np.Qltb d DetectionWorker.threshold); [|apply unknown_face_emits].
  destruct (nth_error (known_face_names w) i) as [n|]; [|apply emits_same; reflexivity].
  apply known_face_emits.
Qed.

Lemma process_faces_emits (frame : Image) (faces : list (FaceEncoding * Location)) (w : t) :
  Spec.emits w (process_faces w frame faces).1 (process_faces w frame faces).2.
Proof.
  revert w. induction faces as [|[enc loc] rest IH]; intros w.
  - apply emits_same; reflexivity.
  - cbn [process_faces].
    pose proof (single_face_emits w enc loc frame) as H1.
    destruct (_process_single_face w enc loc frame) as [w1 r].
    specialize (IH w1). destruct (process_faces w1 frame rest) as [w2 rs].
    simpl in *. replace (match r with Some d => d :: rs | None => rs end)
      with (Spec.option_list_of r ++ rs) by (destruct r; reflexivity).
    eapply emits_app; eassumption.
Qed.

Lemma process_frame_emits (w : t) (frame : Image) (now : Q) :
  Spec.emits w (process_frame w frame now).1
             (Spec.result_detections (process_frame w frame now).2).
Proof.
  unfold process_frame.
  destruct (negb (running w)); [apply emits_same; reflexivity|].
  destruct (Np.cvtColor_BGR2RGB frame) as [rgb|]; [|apply emits_same; reflexivity].
  match goal with |- context [process_faces w frame ?fs] =>
    pose proof (process_faces_emits frame fs w) as Hp;
    destruct (process_faces w frame fs) as [w' ds] end.
  simpl in *. destruct ds; assumption.
Qed.

Lemma step_emits (s : Sched) (ev : Event) :
  ev ≠ ResetSession →
  Spec.emits (worker s) (worker (step s ev).1) (emitted (step s ev).2).
Proof.
  intros Hev. destruct ev as [f|x| |es ns|now]; simpl;
    try (apply emits_same; reflexivity); [contradiction|].
  destruct (pc s).
  - destruct (pending_frame (worker s)) as [f|]; [|apply emits_same; reflexivity].
    destruct (should_process_frame (worker s) now); [|apply emits_same; reflexivity].
    pose proof (process_frame_emits (worker s) f now) as Hp.
    destruct (process_frame (worker s) f now) as [w' r]. simpl in *.
    rewrite app_nil_r. exact Hp.
  - apply emits_same; reflexivity.
Qed.

Lemma emitted_app (a b : list Output) : emitted (a ++ b) = emitted a ++ emitted b.
Proof. unfold emitted. apply flat_map_app. Qed.

Lemma exec_emits (evs : list Event) (s : Sched) :
  Spec.no_reset evs →
  Spec.emits (worker s) (worker (exec s evs).1) (emitted (exec s evs).2).
Proof.
  revert s. induction evs as [|ev evs IH]; intros s Hnr.
  - apply emits_same; reflexivity.
  - apply Forall_cons in Hnr as [Hev Hnr]. cbn [exec].
    pose proof (step_emits s ev Hev) as H1.
    destruct (step s ev) as [s1 o1]. specialize (IH s1 Hnr).
    destruct (exec s1 evs) as [s2 o2]. simpl in *.
    rewrite emitted_app. eapply emits_app; eassumption.
Qed.

End Dedup.

(** C1: in a stretch of a session without [reset_session], whatever the
    frames, the clock and the other calls, the events emitted for known
    faces carry pairwise distinct names, none of them seen before, and the
    events for unknown faces pairwise distinct hashes, none seen before; the
    session sets grow by exactly these. Face by face: a known face is
    dropped, the worker untouched, when its name is in the set, and
    otherwise its name is added and one event produced; likewise for an
    unknown face and its hash. *)
Theorem session_dedup_at_most_once `{FaceLib} (s : DetectionWorker.Sched)
    (evs : list DetectionWorker.Event) (w : DetectionWorker.t) (n : string)
    (crop : Image) (loc : Location) (enc : FaceEncoding) :
  Spec.no_reset evs →
  Spec.emits (DetectionWorker.worker s)
             (DetectionWorker.worker (DetectionWorker.exec s evs).1)
             (DetectionWorker.emitted (DetectionWorker.exec s evs).2)
  ∧ (match DetectionWorker._process_known_face w n crop loc enc with
    | (w', None) => n ∈ DetectionWorker.session_seen_known w ∧ w' = w
    | (w', Some d) =>
        (n ∉ DetectionWorker.session_seen_known w)
        ∧ w' = DetectionWorker.see_known w n
        ∧ DetectionWorker.type d = "known" ∧ DetectionWorker.name d = n
    end)
  ∧ (match DetectionWorker._process_unknown_face w crop loc enc with
    | (w', None) =>
        DetectionWorker._generate_detection_hash enc "Unknown"
          ∈ DetectionWorker.session_seen_unknown_hashes w
        ∧ w' = w
    | (w', Some d) =>
        (DetectionWorker._generate_detection_hash enc "Unknown"
           ∉ DetectionWorker.session_seen_unknown_hashes w)
        ∧ w' = DetectionWorker.see_unknown w
                 (DetectionWorker._generate_detection_hash enc "Unknown")
        ∧ DetectionWorker.type d = "unknown"
        ∧ DetectionWorker.detection_hash d
          = DetectionWorker._generate_detection_hash enc "Unknown"
    end).
Proof.
  intros Hnr. split; [apply exec_emits; assumption|]. split.
  - unfold DetectionWorker._process_known_face.
    destruct (decide _) as [Hin|Hin]; repeat split; assumption.
  - unfold DetectionWorker._process_unknown_face.
    destruct (decide _) as [Hin|Hin]; repeat split; assumption.
Qed.

Lemma session_dedup_at_most_once_witness :
  Spec.emits (DetectionWorker.worker TestLib.start)
             (DetectionWorker.worker (DetectionWorker.exec (H := TestLib.lib) TestLib.start TestLib.trace).1)
             (DetectionWorker.emitted (DetectionWorker.exec (H := TestLib.lib) TestLib.start TestLib.trace).2).
Proof.
  apply (session_dedup_at_most_once (H := TestLib.lib) TestLib.start TestLib.trace
           TestLib.worker "Bob" [] TestLib.box TestLib.probe).
  repeat constructor; discriminate.
Defined.

Example trace_emits_bob_once :
  List.map DetectionWorker.name
    (DetectionWorker.emitted (DetectionWorker.exec (H := TestLib.lib) TestLib.start TestLib.trace).2) = ["Bob"]
  ∧ List.length (DetectionWorker.exec (H := TestLib.lib) TestLib.start TestLib.trace).2 = 2%nat.
Proof. vm_compute. split; reflexivity. Qed.

(** ** The pending-frame slot *)

Section Slot.
Context `{FaceLib}.
Import DetectionWorker.

Lemma processed_frames_app (a b : list Output) :
  processed_frames (a ++ b) = processed_frames a ++ processed_frames b.
Proof. unfold processed_frames. apply List.map_app. Qed.

Lemma queued_frames_cons (ev : Event) (evs : list Event) :
  queued_frames (ev :: evs) = queued_frames [ev] ++ queued_frames evs.
Proof. unfold queued_frames. simpl. rewrite app_nil_r. reflexivity. Qed.

Lemma step_slot (s : Sched) (ev : Event) :
  processed_frames (step s ev).2 ++ Spec.slot (step s ev).1
    `sublist_of` Spec.slot s ++ queued_frames [ev].
Proof.
  destruct s as [w p]. destruct ev as [f|x| |es ns|now].
  - destruct p; unfold Spec.slot; simpl.
    + apply sublist_inserts_l. reflexivity.
    + apply sublist_nil_l.
  - destruct p; unfold Spec.slot; simpl; rewrite ?app_nil_r; reflexivity.
  - destruct p; unfold Spec.slot; simpl; rewrite ?app_nil_r; reflexivity.
  - destruct p; unfold Spec.slot; simpl; rewrite ?app_nil_r; reflexivity.
  - destruct p; cbn [step pc worker].
    + destruct (pending_frame w) as [f|] eqn:Ep.
      * destruct (should_process_frame w now).
        -- destruct (process_frame w f now) as [w' r].
           unfold Spec.slot. simpl. rewrite Ep. reflexivity.
        -- unfold Spec.slot. simpl. rewrite Ep. reflexivity.
      * unfold Spec.slot. simpl. rewrite Ep. reflexivity.
    + unfold Spec.slot. simpl. reflexivity.
Qed.

Lemma exec_slot (evs : list Event) (s : Sched) :
  processed_frames (exec s evs).2 ++ Spec.slot (exec s evs).1
    `sublist_of` Spec.slot s ++ queued_frames evs.
Proof.
  revert s. induction evs as [|ev evs IH]; intros s.
  - simpl. rewrite app_nil_r. reflexivity.
  - cbn [exec]. pose proof (step_slot s ev) as H1.
    destruct (step s ev) as [s1 o1]. specialize (IH s1).
    destruct (exec s1 evs) as [s2 o2]. cbn [fst snd] in *.
    rewrite processed_frames_app, queued_frames_cons, <- app_assoc.
    etrans; [apply sublist_app; [reflexivity | exact IH]|].
    rewrite !app_assoc. apply sublist_app; [exact H1 | reflexivity].
Qed.

Lemma exec_queues (fs : list Image) (s : Sched) :
  exec s (List.map Queue fs)
  = ({| worker := set_pending (worker s) (Spec.latest (pending_frame (worker s)) fs);
        pc := pc s |}, []).
Proof.
  revert s. induction fs as [|f fs IH]; intros [w p].
  - simpl. destruct w; reflexivity.
  - cbn [List.map exec step]. rewrite IH. simpl. reflexivity.
Qed.

Lemma exec_app (evs1 evs2 : list Event) (s : Sched) :
  exec s (evs1 ++ evs2)
  = let '(s1, o1) := exec s evs1 in
    let '(s2, o2) := exec s1 evs2 in (s2, o1 ++ o2).
Proof.
  revert s. induction evs1 as [|e evs1 IH]; intros s.
  - simpl. destruct (exec s evs2). reflexivity.
  - cbn [app exec]. destruct (step s e) as [s1 o1].
    rewrite IH. destruct (exec s1 evs1) as [s2 o2].
    destruct (exec s2 evs2) as [s3 o3]. rewrite app_assoc. reflexivity.
Qed.

End Slot.

(** C4: the slot holds one frame at most and [queue_frame] overwrites it.
    After any run of [queue_frame] calls the slot holds the last frame queued
    (or what it held, when there was no call), and a pass of the loop hands
    over exactly that frame, when it hands over anything. On the pass after
    a processing the slot is emptied. Over any interleaving of calls and
    passes, the frames processed followed by the frame still waiting form a
    subsequence of the frames queued: no frame is processed twice. *)
Theorem single_slot_replacement `{FaceLib} (w : DetectionWorker.t) (f : Image)
    (s : DetectionWorker.Sched) (fs : list Image) (now : Q)
    (evs : list DetectionWorker.Event) :
  DetectionWorker.pending_frame (DetectionWorker.queue_frame w f) = Some f
  ∧ DetectionWorker.pending_frame
      (DetectionWorker.worker
         (DetectionWorker.exec s (List.map DetectionWorker.Queue fs)).1)
    = Spec.latest (DetectionWorker.pending_frame (DetectionWorker.worker s)) fs
  ∧ (DetectionWorker.exec s (List.map DetectionWorker.Queue fs)).2 = []
  ∧ DetectionWorker.processed_frames
      (DetectionWorker.exec s (List.map DetectionWorker.Queue fs ++ [DetectionWorker.Clock now])).2
    = (if Spec.at_check (DetectionWorker.pc s)
          && DetectionWorker.should_process_frame (DetectionWorker.worker s) now
       then match Spec.latest (DetectionWorker.pending_frame (DetectionWorker.worker s)) fs with
            | Some g => [g]
            | None => []
            end
       else [])
  ∧ (if Spec.at_check (DetectionWorker.pc s) then True
     else DetectionWorker.pending_frame
            (DetectionWorker.worker (DetectionWorker.step s (DetectionWorker.Clock now)).1)
          = None
          ∧ DetectionWorker.pc (DetectionWorker.step s (DetectionWorker.Clock now)).1
            = DetectionWorker.AtCheck)
  ∧ DetectionWorker.processed_frames (DetectionWorker.exec s evs).2
      ++ Spec.slot (DetectionWorker.exec s evs).1
    `sublist_of` Spec.slot s ++ DetectionWorker.queued_frames evs.
Proof.
  split; [reflexivity|].
  split; [rewrite exec_queues; reflexivity|].
  split; [rewrite exec_queues; reflexivity|].
  split.
  - rewrite exec_app, exec_queues. destruct s as [w0 [|]]; simpl.
    + destruct (Spec.latest (DetectionWorker.pending_frame w0) fs) as [g|].
      * change (DetectionWorker.should_process_frame
                  (DetectionWorker.set_pending w0 (Some g)) now)
          with (DetectionWorker.should_process_frame w0 now).
        destruct (DetectionWorker.should_process_frame w0 now); [|reflexivity].
        destruct (DetectionWorker.process_frame _ g now). reflexivity.
      * destruct (DetectionWorker.should_process_frame w0 now); reflexivity.
    + reflexivity.
  - split.
    + destruct s as [w0 [|]]; simpl; [exact I | split; reflexivity].
    + apply exec_slot.
Qed.

(** ** The processing interval *)

Section Interval.
Context `{FaceLib}.
Import DetectionWorker.


Lemma process_frame_timing (w : t) (frame : Image) (now : Q) :
  processing_interval (process_frame w frame now).1 = processing_interval w
  ∧ last_processing_time (process_frame w frame now).1 = last_processing_time w.
Proof.
  assert (Hk : ∀ w n c l e,
    processing_interval (_process_known_face w n c l e).1 = processing_interval w
    ∧ last_processing_time (_process_known_face w n c l e).1 = last_processing_time w).
  { intros. unfold _process_known_face. destruct (decide _); split; reflexivity. }
  assert (Hu : ∀ w c l e,
    processing_interval (_process_unknown_face w c l e).1 = processing_interval w
    ∧ last_processing_time (_process_unknown_face w c l e).1 = last_processing_time w).
  { intros. unfold _process_unknown_face. destruct (decide _); split; reflexivity. }
  assert (Hs : ∀ w e l f,
    processing_interval (_process_single_face w e l f).1 = processing_interval w
    ∧ last_processing_time (_process_single_face w e l f).1 = last_processing_time w).
  { intros. unfold _process_single_face.
    destruct (length (known_face_encodings _) =? 0)%nat; [apply Hu|].
    destruct (Np.argmin _) as [i|]; [|split; reflexivity].
    destruct (nth_error _ i) as [d|]; [|split; reflexivity].
    destruct (Np.Qltb d DetectionWorker.threshold); [|apply Hu].
    destruct (nth_error (known_face_names _) i); [apply Hk | split; reflexivity]. }
  assert (Hf : ∀ fs w f,
    processing_interval (process_faces w f fs).1 = processing_interval w
    ∧ last_processing_time (process_faces w f fs).1 = last_processing_time w).
  { induction fs as [|[e l] fs IH]; intros w0 f; [split; reflexivity|].
    cbn [process_faces]. pose proof (Hs w0 e l f) as [H1 H2].
    destruct (_process_single_face w0 e l f) as [w1 r].
    pose proof (IH w1 f) as [H3 H4]. destruct (process_faces w1 f fs) as [w2 rs].
    simpl in *. split; congruence. }
  unfold process_frame. destruct (negb (running w)); [split; reflexivity|].
  destruct (Np.cvtColor_BGR2RGB frame) as [rgb|]; [|split; reflexivity].
  match goal with |- context [process_faces w frame ?fs] =>
    pose proof (Hf fs w frame) as Hp; destruct (process_faces w frame fs) as [w' ds] end.
  exact Hp.
Qed.




End Interval.



Example trace_with_reset_emits_bob_twice :
  List.map DetectionWorker.name
    (DetectionWorker.emitted
       (DetectionWorker.exec (H := TestLib.lib) TestLib.start TestLib.trace_with_reset).2)
  = ["Bob"; "Bob"].
Proof. vm_compute. reflexivity. Qed.

Example trace_burst_processes_latest_only :
  DetectionWorker.processed_frames
    (DetectionWorker.exec (H := TestLib.lib) TestLib.start TestLib.trace_burst).2
  = [[TestLib.face 2]]
  ∧ DetectionWorker.pending_frame
      (DetectionWorker.worker
         (DetectionWorker.exec (H := TestLib.lib) TestLib.start TestLib.trace_burst).1)
    = None.
Proof. vm_compute. split; reflexivity. Qed.

Example trace_processed_times :
  DetectionWorker.processed_times
    (DetectionWorker.exec (H := TestLib.lib) TestLib.start TestLib.trace).2 = [10%Q; 13%Q].
Proof. vm_compute. reflexivity. Qed.

(** ** Enrollment *)

Lemma lstrip_whitespace_only (s : string) : Spec.whitespace_only s → PyStr.lstrip s = "".
Proof.
  unfold Spec.whitespace_only. induction s as [|c s IH]; intros Hws; [reflexivity|].
  simpl in Hws. apply Forall_cons in Hws as [Hc Hs].
  simpl. rewrite Hc. apply IH. assumption.
Qed.

Lemma strip_whitespace_only (s : string) : Spec.whitespace_only s → PyStr.strip s = "".
Proof.
  intros Hws. unfold PyStr.strip. rewrite lstrip_whitespace_only by assumption. reflexivity.
Qed.

Section Register.
Context `{FaceLib}.
Import FaceManager.

(** A failed registration leaves the manager as it was. *)
Lemma register_failure_unchanged (fm : t) (wd : World) (io : IO)
    (face_crop : Image) (h name : string) :
  (register_unknown_face fm wd io face_crop h name).2 = false →
  (register_unknown_face fm wd io face_crop h name).1.1 = fm.
Proof.
  unfold register_unknown_face.
  destruct (PyStr.is_empty name || PyStr.is_empty (PyStr.strip name)); [reflexivity|].
  destruct (decide _); [reflexivity|].
  destruct (Np.cvtColor_BGR2RGB face_crop) as [rgb|]; [|reflexivity].
  destruct (face_encodings rgb) as [|enc encs]; [reflexivity|].
  destruct (imwrite_outcome io); try reflexivity.
  destruct (_save_persistent_encodings _ _ io) as [wd2 b]. simpl. discriminate.
Qed.

(** What a successful registration went through and what it leaves. *)
Lemma register_success_inv (fm : t) (wd : World) (io : IO)
    (face_crop : Image) (h name : string) :
  (register_unknown_face fm wd io face_crop h name).2 = true →
  PyStr.is_empty name || PyStr.is_empty (PyStr.strip name) = false
  ∧ (PyStr.strip name ∉ known_face_names fm)
  ∧ ∃ rgb enc encs reloads_as,
      Np.cvtColor_BGR2RGB face_crop = Some rgb
      ∧ face_encodings rgb = enc :: encs
      ∧ imwrite_outcome io = Written reloads_as
      ∧ (register_unknown_face fm wd io face_crop h name).1.1
        = with_registry fm (known_face_encodings fm ++ [enc])
                        (known_face_names fm ++ [PyStr.strip name])
                        (<[PyStr.strip name := face_crop]> (known_face_images fm)).
Proof.
  unfold register_unknown_face.
  destruct (PyStr.is_empty name || PyStr.is_empty (PyStr.strip name)); [discriminate|].
  destruct (decide _) as [Hin|Hin]; [discriminate|].
  destruct (Np.cvtColor_BGR2RGB face_crop) as [rgb|]; [|discriminate].
  destruct (face_encodings rgb) as [|enc encs] eqn:Ee; [discriminate|].
  destruct (imwrite_outcome io) as [r| |]; try discriminate.
  destruct (_save_persistent_encodings _ _ io) as [wd2 b]. simpl. intros _.
  split; [reflexivity|]. split; [assumption|].
  exists rgb, enc, encs, r. split; [reflexivity|]. split; [exact Ee|]. split; reflexivity.
Qed.

Lemma register_blank (fm : t) (wd : World) (io : IO) (face_crop : Image) (h name : string) :
  Spec.whitespace_only name →
  (register_unknown_face fm wd io face_crop h name).2 = false.
Proof.
  intros Hws. unfold register_unknown_face.
  rewrite (strip_whitespace_only name Hws). simpl. rewrite orb_true_r. reflexivity.
Qed.

Lemma register_duplicate (fm : t) (wd : World) (io : IO) (face_crop : Image) (h name : string) :
  PyStr.strip name ∈ known_face_names fm →
  (register_unknown_face fm wd io face_crop h name).2 = false.
Proof.
  intros Hin. unfold register_unknown_face.
  destruct (PyStr.is_empty name || PyStr.is_empty (PyStr.strip name)); [reflexivity|].
  destruct (decide _); [reflexivity | contradiction].
Qed.

Lemma register_no_encoding (fm : t) (wd : World) (io : IO) (face_crop : Image) (h name : string) :
  Spec.no_encoding face_crop →
  (register_unknown_face fm wd io face_crop h name).2 = false.
Proof.
  unfold Spec.no_encoding. intros Hne. unfold register_unknown_face.
  destruct (PyStr.is_empty name || PyStr.is_empty (PyStr.strip name)); [reflexivity|].
  destruct (decide _); [reflexivity|].
  destruct (Np.cvtColor_BGR2RGB face_crop) as [rgb|]; [|reflexivity].
  rewrite Hne. reflexivity.
Qed.

Lemma register_image_not_written (fm : t) (wd : World) (io : IO)
    (face_crop : Image) (h name : string) :
  (∀ r, imwrite_outcome io ≠ Written r) →
  (register_unknown_face fm wd io face_crop h name).2 = false.
Proof.
  intros Hnw. destruct (register_unknown_face fm wd io face_crop h name).2 eqn:E;
    [|reflexivity].
  apply register_success_inv in E as (_ & _ & rgb & enc & encs & r & _ & _ & Hw & _).
  exfalso. exact (Hnw r Hw).
Qed.

End Register.

(** C8: registration fails when the name is empty or made of whitespace,
    when the trimmed name is already registered, and when no encoding comes
    out of the crop; in particular when the manager is what a successful
    registration of the same name has left. The manager, and so the size of
    the registry, is then unchanged. *)
Theorem register_rejects `{FaceLib} (fm : FaceManager.t) (wd : FaceManager.World)
    (io : FaceManager.IO) (face_crop : Image) (h name : string) :
  Spec.whitespace_only name
  ∨ PyStr.strip name ∈ FaceManager.known_face_names fm
  ∨ Spec.no_encoding face_crop
  ∨ (∃ fm0 wd0 io0 crop0 h0,
        (FaceManager.register_unknown_face fm0 wd0 io0 crop0 h0 name).2 = true
        ∧ fm = (FaceManager.register_unknown_face fm0 wd0 io0 crop0 h0 name).1.1) →
  (FaceManager.register_unknown_face fm wd io face_crop h name).2 = false
  ∧ (FaceManager.register_unknown_face fm wd io face_crop h name).1.1 = fm
  ∧ length (FaceManager.known_face_names
              (FaceManager.register_unknown_face fm wd io face_crop h name).1.1)
    = length (FaceManager.known_face_names fm).
Proof.
  intros Hcause.
  assert (Hfalse : (FaceManager.register_unknown_face fm wd io face_crop h name).2 = false).
  { destruct Hcause as [Hws | [Hdup | [Hne | (fm0 & wd0 & io0 & crop0 & h0 & Hok & ->)]]].
    - apply register_blank. assumption.
    - apply register_duplicate. assumption.
    - apply register_no_encoding. assumption.
    - apply register_duplicate.
      apply register_success_inv in Hok as (_ & _ & rgb & enc & encs & r & _ & _ & _ & ->).
      simpl. apply elem_of_app. right. apply list_elem_of_singleton. reflexivity. }
  pose proof (register_failure_unchanged fm wd io face_crop h name Hfalse) as Hsame.
  split; [assumption|]. split; [assumption|]. rewrite Hsame. reflexivity.
Qed.

Lemma register_rejects_witness :
  let fm1 := (FaceManager.register_unknown_face (H := TestLib.lib) TestLib.manager
                TestLib.world TestLib.io_ok TestLib.frame "0f3a" "Alice").1.1 in
  (FaceManager.register_unknown_face (H := TestLib.lib) fm1 TestLib.world TestLib.io_ok
     TestLib.frame "0f3a" "Alice").2 = false
  ∧ (FaceManager.register_unknown_face (H := TestLib.lib) fm1 TestLib.world TestLib.io_ok
       TestLib.frame "0f3a" "Alice").1.1 = fm1
  ∧ length (FaceManager.known_face_names
              (FaceManager.register_unknown_face (H := TestLib.lib) fm1 TestLib.world
                 TestLib.io_ok TestLib.frame "0f3a" "Alice").1.1)
    = length (FaceManager.known_face_names fm1).
Proof.
  intros fm1.
  apply (register_rejects (H := TestLib.lib) fm1 TestLib.world TestLib.io_ok
           TestLib.frame "0f3a" "Alice").
  right. right. right.
  exists TestLib.manager, TestLib.world, TestLib.io_ok, TestLib.frame, "0f3a".
  split; reflexivity.
Defined.

(** C9: when the image is written but the snapshot is not, the
    registration still succeeds: the encoding, the trimmed name and the crop
    are in the manager, the failure is logged as an error, and the result is
    success. *)
Theorem snapshot_failure_not_fatal `{FaceLib} (fm : FaceManager.t) (wd : FaceManager.World)
    (io : FaceManager.IO) (face_crop rgb_face : Image) (h name : string)
    (enc : FaceEncoding) (encs : list FaceEncoding)
    (reloads_as : option Image) (remains : FaceManager.PickleFile) :
  PyStr.is_empty name || PyStr.is_empty (PyStr.strip name) = false →
  PyStr.strip name ∉ FaceManager.known_face_names fm →
  Np.cvtColor_BGR2RGB face_crop = Some rgb_face →
  face_encodings rgb_face = enc :: encs →
  FaceManager.imwrite_outcome io = FaceManager.Written reloads_as →
  FaceManager.save_outcome io = FaceManager.SaveRaises remains →
  let '(fm', wd', ok) := FaceManager.register_unknown_face fm wd io face_crop h name in
  ok = true
  ∧ FaceManager.known_face_encodings fm' = FaceManager.known_face_encodings fm ++ [enc]
  ∧ FaceManager.known_face_names fm' = FaceManager.known_face_names fm ++ [PyStr.strip name]
  ∧ FaceManager.known_face_images fm' !! PyStr.strip name = Some face_crop
  ∧ (FaceManager.ERROR,
     ("Error saving persistent encodings: " ++ FaceManager.exc_text io)%string)
    ∈ FaceManager.log wd'
  ∧ FaceManager.encodings_pkl wd' = remains
  ∧ (FaceManager._save_persistent_encodings fm' wd io).2 = false.
Proof.
  intros Hname Hfresh Hcvt Henc Himw Hsave.
  unfold FaceManager.register_unknown_face, FaceManager._save_persistent_encodings.
  rewrite Hname. destruct (decide _) as [Hin|_]; [contradiction|].
  rewrite Hcvt, Henc, Himw, Hsave. cbn -[String.append].
  split; [reflexivity|]. split; [reflexivity|]. split; [reflexivity|].
  split; [apply lookup_insert_eq|]. split; [|split; reflexivity].
  unfold FaceManager.logger. cbn -[String.append].
  apply elem_of_app. left. apply elem_of_app. right.
  apply list_elem_of_singleton. reflexivity.
Qed.

Lemma snapshot_failure_not_fatal_witness :
  let '(fm', wd', ok) :=
    FaceManager.register_unknown_face (H := TestLib.lib) TestLib.manager TestLib.world
      TestLib.io_save_fails TestLib.frame "0f3a" " Alice " in
  ok = true
  ∧ FaceManager.known_face_encodings fm' = [[1]] ++ [[0]]
  ∧ FaceManager.known_face_names fm' = ["Bob"] ++ [PyStr.strip " Alice "]
  ∧ FaceManager.known_face_images fm' !! PyStr.strip " Alice " = Some TestLib.frame
  ∧ (FaceManager.ERROR,
     ("Error saving persistent encodings: "
        ++ FaceManager.exc_text TestLib.io_save_fails)%string)
    ∈ FaceManager.log wd'
  ∧ FaceManager.encodings_pkl wd' = FaceManager.Absent
  ∧ (FaceManager._save_persistent_encodings fm' TestLib.world TestLib.io_save_fails).2 = false.
Proof.
  apply (snapshot_failure_not_fatal (H := TestLib.lib) TestLib.manager TestLib.world
           TestLib.io_save_fails TestLib.frame
           [[(0, 0, 2); (0, 0, 2); (0, 0, 2); (0, 0, 2)]] "0f3a" " Alice "
           [0] [] (Some [TestLib.face 2]) FaceManager.Absent).
  - reflexivity.
  - vm_compute. intros Hin. inversion Hin as [|? ? ? Hin']; subst; inversion Hin'.
  - reflexivity.
  - reflexivity.
  - reflexivity.
  - reflexivity.
Defined.

Example alice_is_trimmed : PyStr.strip " Alice " = "Alice".
Proof. reflexivity. Qed.

(** C10: whatever makes the registration fail - a blank name, a name
    already registered, a crop without encoding, an image file that cannot
    be written, or anything else - the encodings, the names and the images
    of the manager are what they were before the call. *)
Theorem register_failure_no_mutation `{FaceLib} (fm : FaceManager.t) (wd : FaceManager.World)
    (io : FaceManager.IO) (face_crop : Image) (h name : string) :
  Spec.whitespace_only name
  ∨ PyStr.strip name ∈ FaceManager.known_face_names fm
  ∨ Spec.no_encoding face_crop
  ∨ (∀ r, FaceManager.imwrite_outcome io ≠ FaceManager.Written r)
  ∨ (FaceManager.register_unknown_face fm wd io face_crop h name).2 = false →
  (FaceManager.register_unknown_face fm wd io face_crop h name).2 = false
  ∧ (FaceManager.register_unknown_face fm wd io face_crop h name).1.1 = fm
  ∧ Spec.registry_unchanged fm
      (FaceManager.register_unknown_face fm wd io face_crop h name).1.1.
Proof.
  intros Hcause.
  assert (Hfalse : (FaceManager.register_unknown_face fm wd io face_crop h name).2 = false).
  { destruct Hcause as [Hws | [Hdup | [Hne | [Hnw | Hf]]]].
    - apply register_blank. assumption.
    - apply register_duplicate. assumption.
    - apply register_no_encoding. assumption.
    - apply register_image_not_written. assumption.
    - assumption. }
  pose proof (register_failure_unchanged fm wd io face_crop h name Hfalse) as Hsame.
  split; [assumption|]. split; [assumption|].
  rewrite Hsame. repeat split; reflexivity.
Qed.

Lemma register_failure_no_mutation_witness :
  (FaceManager.register_unknown_face (H := TestLib.lib) TestLib.manager TestLib.world
     TestLib.io_imwrite_fails TestLib.frame "0f3a" "Alice").2 = false
  ∧ (FaceManager.register_unknown_face (H := TestLib.lib) TestLib.manager TestLib.world
       TestLib.io_imwrite_fails TestLib.frame "0f3a" "Alice").1.1 = TestLib.manager
  ∧ Spec.registry_unchanged TestLib.manager
      (FaceManager.register_unknown_face (H := TestLib.lib) TestLib.manager TestLib.world
         TestLib.io_imwrite_fails TestLib.frame "0f3a" "Alice").1.1.
Proof.
  apply (register_failure_no_mutation (H := TestLib.lib) TestLib.manager TestLib.world
           TestLib.io_imwrite_fails TestLib.frame "0f3a" "Alice").
  right. right. right. left. intros r. simpl. discriminate.
Defined.

(** ** Reconciliation of the directory and the snapshot *)

Section Reconcile.
Context `{FaceLib}.
Import FaceManager.

Lemma load_images_loop_lists (ns : list string) (fm : t) (wd : World) :
  known_face_encodings (load_images_loop fm wd ns).1 = known_face_encodings fm
  ∧ known_face_names (load_images_loop fm wd ns).1 = known_face_names fm.
Proof.
  revert fm wd. induction ns as [|n ns IH]; intros fm wd; [split; reflexivity|].
  cbn [load_images_loop].
  destruct (_find_image_for_name fm wd n) as [e|]; [|apply IH].
  destruct (loaded e) as [image|]; [|apply IH].
  destruct (IH (with_registry fm (known_face_encodings fm) (known_face_names fm)
                  (<[n := image]> (known_face_images fm)))
               (logger DEBUG ("Loaded image for persistent encoding: " ++ n)%string wd))
    as [He Hn].
  split; assumption.
Qed.

(** Where a snapshot exists, what the directory scan had put in the two
    lists is replaced by the lists of the snapshot. *)
Lemma snapshot_replaces_lists (fm : t) (wd : World) (data : Snapshot) :
  encodings_pkl wd = Pickled data →
  known_face_encodings (_load_persistent_encodings fm wd).1 = encodings data
  ∧ known_face_names (_load_persistent_encodings fm wd).1 = names data.
Proof.
  intros Hp. unfold _load_persistent_encodings, _load_images_for_persistent_encodings.
  rewrite Hp. apply load_images_loop_lists.
Qed.

Lemma last_wins_names (ns : list string) (es : list FaceEncoding) :
  length ns = length es →
  NoDup (Spec.last_wins ns es).1
  ∧ (∀ n, n ∈ (Spec.last_wins ns es).1 ↔ n ∈ ns)
  ∧ length (Spec.last_wins ns es).1 = length (Spec.last_wins ns es).2.
Proof.
  revert es. induction ns as [|n ns IH]; intros [|e es] Hlen; try discriminate.
  - simpl. split; [constructor|]. split; [tauto | reflexivity].
  - injection Hlen as Hlen. destruct (IH es Hlen) as (Hnd & Hin & Hl).
    cbn [Spec.last_wins]. destruct (Spec.last_wins ns es) as [un ue].
    destruct (decide (n ∈ ns)) as [Hn|Hn]; cbn [fst snd] in *.
    + split; [assumption|]. split; [|assumption].
      intros x. rewrite Hin, elem_of_cons. split; [tauto|].
      intros [->|Hx]; assumption.
    + split; [|split].
      * apply NoDup_cons. split; [|assumption]. rewrite Hin. assumption.
      * intros x. rewrite !elem_of_cons, Hin. tauto.
      * simpl. congruence.
Qed.

Lemma dedup_loop_last_wins (fm : t) (k : nat) (seen : gset string)
    (ue : list FaceEncoding) (un : list string) (ui : gmap string Image) :
  length (known_face_names fm) = length (known_face_encodings fm) →
  (k ≤ length (known_face_names fm))%nat →
  seen = list_to_set (drop k (known_face_names fm)) →
  (un, ue) = Spec.last_wins (drop k (known_face_names fm)) (drop k (known_face_encodings fm)) →
  ∃ ui', dedup_loop fm (List.rev (seq 0 k)) (seen, ue, un, ui)
         = Some ((Spec.last_wins (known_face_names fm) (known_face_encodings fm)).2,
                 (Spec.last_wins (known_face_names fm) (known_face_encodings fm)).1, ui').
Proof.
  intros Hlen. revert seen ue un ui.
  induction k as [|k IH]; intros seen ue un ui Hk Hseen Hacc.
  - exists ui. rewrite !drop_0 in Hacc. cbn [seq List.rev dedup_loop].
    rewrite <- Hacc. reflexivity.
  - rewrite seq_S, rev_unit. cbn [Nat.add dedup_loop].
    destruct (lookup_lt_is_Some_2 (known_face_names fm) k) as [n Hn]; [lia|].
    destruct (lookup_lt_is_Some_2 (known_face_encodings fm) k) as [e He]; [lia|].
    rewrite !nth_error_lookup, Hn.
    assert (Hacc' : Spec.last_wins (drop k (known_face_names fm))
                                   (drop k (known_face_encodings fm))
                    = if decide (n ∈ drop (S k) (known_face_names fm))
                      then (un, ue) else (n :: un, e :: ue)).
    { rewrite (drop_S _ _ _ Hn), (drop_S _ _ _ He). cbn [Spec.last_wins].
      rewrite <- Hacc. reflexivity. }
    assert (Hset : list_to_set (drop k (known_face_names fm)) = ({[n]} ∪ seen : gset string)).
    { rewrite (drop_S _ _ _ Hn), Hseen. reflexivity. }
    destruct (decide (n ∈ seen)) as [Hin|Hin].
    + apply IH; [lia | |].
      * rewrite Hset. set_solver.
      * rewrite Hacc'. destruct (decide _) as [|Hnin]; [reflexivity|].
        exfalso. apply Hnin. rewrite Hseen in Hin.
        apply elem_of_list_to_set in Hin. exact Hin.
    + rewrite He. apply IH; [lia | |].
      * rewrite Hset. reflexivity.
      * rewrite Hacc'. destruct (decide _) as [Hyes|]; [|reflexivity].
        exfalso. apply Hin. rewrite Hseen. apply elem_of_list_to_set. exact Hyes.
Qed.

(** On lists of equal length [_remove_duplicate_encodings] keeps, for each
    name, its last entry: afterwards every name occurs once. *)
Lemma remove_duplicates_last_wins (fm : t) (wd : World) :
  length (known_face_names fm) = length (known_face_encodings fm) →
  known_face_names (_remove_duplicate_encodings fm wd).1
  = (Spec.last_wins (known_face_names fm) (known_face_encodings fm)).1
  ∧ known_face_encodings (_remove_duplicate_encodings fm wd).1
    = (Spec.last_wins (known_face_names fm) (known_face_encodings fm)).2
  ∧ NoDup (known_face_names (_remove_duplicate_encodings fm wd).1)
  ∧ (∀ n, n ∈ known_face_names (_remove_duplicate_encodings fm wd).1
          ↔ n ∈ known_face_names fm).
Proof.
  intros Hlen. unfold _remove_duplicate_encodings.
  destruct (dedup_loop_last_wins fm (length (known_face_names fm)) ∅ [] [] ∅ Hlen)
    as [ui' Hloop]; [lia | | |].
  - rewrite drop_all. reflexivity.
  - rewrite drop_all. reflexivity.
  - rewrite Hloop. cbn [fst known_face_names known_face_encodings with_registry].
    destruct (last_wins_names _ _ Hlen) as (Hnd & Hin & _).
    split; [reflexivity|]. split; [reflexivity|]. split; assumption.
Qed.

End Reconcile.

(** C6, on the code: with a picture of Alice in the faces directory and a
    snapshot that lists Bob only, [refresh_faces] and [__init__] end with Bob
    alone - the name present only in the directory is not retained; and with
    two pictures of Alice and no snapshot, [__init__] ends with the name
    twice, where [refresh_faces] keeps one. *)
Theorem reconcile_on_failing_input :
  FaceManager.known_face_names
    (FaceManager.refresh_faces (H := TestLib.lib) TestLib.manager
       TestLib.world_alice_and_snapshot).1 = ["bob"]
  ∧ FaceManager.known_face_names
      (FaceManager.init (H := TestLib.lib) "faces" "unknowns"
         TestLib.world_alice_and_snapshot).1 = ["bob"]
  ∧ FaceManager.known_face_names
      (FaceManager.init (H := TestLib.lib) "faces" "unknowns" TestLib.world_two_alices).1
    = ["alice"; "alice"]
  ∧ FaceManager.known_face_names
      (FaceManager.refresh_faces (H := TestLib.lib) TestLib.manager
         TestLib.world_two_alices).1 = ["alice"]
  ∧ FaceManager.known_face_encodings
      (FaceManager.refresh_faces (H := TestLib.lib) TestLib.manager
         TestLib.world_two_alices).1 = [[4]].
Proof.
  repeat split; vm_compute; reflexivity.
Qed.

(** ** Checks of the helpers against Python *)

Example md5_empty : MD5.hexdigest (PyStr.encode "") = "d41d8cd98f00b204e9800998ecf8427e".
Proof. vm_compute. reflexivity. Qed.

Example md5_abc : MD5.hexdigest (PyStr.encode "abc") = "900150983cd24fb0d6963f7d28e17f72".
Proof. vm_compute. reflexivity. Qed.

Example md5_two_blocks :
  MD5.hexdigest (PyStr.encode
    "12345678901234567890123456789012345678901234567890123456789012345678901234567890")
  = "57edf4a22be3c955ac49da2e2107b67a".
Proof. vm_compute. reflexivity. Qed.

Example md5_latin1 :
  MD5.hexdigest (PyStr.encode (String (PyStr.chr 233) "_00"))
  = "40157e1b9882a387d495e500b98113be".
Proof. vm_compute. reflexivity. Qed.

Example splitext_examples :
  OsPath.splitext "alice_2024.tar.JPG" = ("alice_2024.tar", ".JPG")
  ∧ OsPath.splitext ".bashrc" = (".bashrc", "")
  ∧ FaceManager.name_of_file "Bob_20240101_120000.jpg" = "Bob".
Proof. repeat split; reflexivity. Qed.

Example join_examples :
  OsPath.join "faces" "a.jpg" = "faces/a.jpg"
  ∧ OsPath.join "faces/" "a.jpg" = "faces/a.jpg"
  ∧ OsPath.join "" "a.jpg" = "a.jpg"
  ∧ OsPath.join "faces" "/tmp/a.jpg" = "/tmp/a.jpg"
  ∧ OsPath.join "faces" "" = "faces/"
  ∧ OsPath.basename "./sub/a.jpg" = "a.jpg"
  ∧ OsPath.basename "a.jpg" = "a.jpg".
Proof. repeat split. Qed.

Example slice_examples :
  Np.slice (-2) 5 [1; 2; 3; 4] = [3; 4] ∧ Np.slice 1 3 [1; 2; 3; 4] = [2; 3]
  ∧ Np.slice 3 1 [1; 2; 3; 4] = [].
Proof. repeat split; reflexivity. Qed.


(** * Further properties of the code *)

(** ** The camera loop *)

Lemma neg_mod_step (c k : Z) :
  1 <= k →
  (c mod k = 0 ∧ (- c) mod k = 0 ∧ (- (c + 1)) mod k = k - 1)
  ∨ (c mod k ≠ 0 ∧ (- c) mod k = (- (c + 1)) mod k + 1 ∧ 0 <= (- (c + 1)) mod k).
Proof.
  intros Hk. pose proof (Z.div_mod c k ltac:(lia)) as Hdm.
  pose proof (Z.mod_pos_bound c k ltac:(lia)) as Hb.
  destruct (Z.eq_dec (c mod k) 0) as [Hz|Hnz].
  - left. split; [assumption|]. split.
    + symmetry. apply (Z.mod_unique_pos _ _ (- (c / k))); [lia | nia].
    + symmetry. apply (Z.mod_unique_pos _ _ (- (c / k) - 1)); [lia | nia].
  - right. split; [assumption|].
    assert (H1 : (- c) mod k = k - c mod k).
    { symmetry. apply (Z.mod_unique_pos _ _ (- (c / k) - 1)); [lia | nia]. }
    assert (H2 : (- (c + 1)) mod k = k - c mod k - 1).
    { symmetry. apply (Z.mod_unique_pos _ _ (- (c / k) - 1)); [lia | nia]. }
    lia.
Qed.

Lemma loop_only_reads (evs : list CameraWorker.Event) (w : CameraWorker.t) (c : Z) :
  CameraWorker.running w = true →
  1 <= CameraWorker.frame_skip w →
  Spec.only_reads evs →
  ∃ out, CameraWorker.loop w c evs = (w, out, CameraWorker.Looping)
    ∧ (∀ i, CameraWorker.frames out !! i
            = CameraWorker.frames_read evs
                !! (Z.to_nat ((- c) mod CameraWorker.frame_skip w)
                    + i * Z.to_nat (CameraWorker.frame_skip w))%nat)
    ∧ CameraWorker.errors out
      = repeat "Failed to read frame" (CameraWorker.failed_reads evs).
Proof.
  intros Hrun Hk. revert c. induction evs as [|ev evs IH]; intros c Hr.
  - exists []. cbn [CameraWorker.loop]. rewrite Hrun.
    split; [reflexivity|]. split; [|reflexivity].
    intros i. simpl. rewrite !lookup_nil. reflexivity.
  - apply Forall_cons in Hr as [Hev Hr]. destruct ev as [[f|]| |]; try contradiction.
    + destruct (IH (c + 1) Hr) as (out & Hloop & Hfr & Herr).
      cbn [CameraWorker.loop]. rewrite Hrun. cbn [negb].
      destruct (CameraWorker.frame_skip w =? 0) eqn:E0; [apply Z.eqb_eq in E0; lia|].
      rewrite Hloop. eexists. split; [reflexivity|].
      set (k := CameraWorker.frame_skip w) in *.
      assert (HK : (Z.to_nat k = S (Z.to_nat (k - 1)))%nat) by lia.
      split.
      * intros i. change (CameraWorker.frames_read (CameraWorker.Read (Some f) :: evs))
          with (f :: CameraWorker.frames_read evs).
        unfold CameraWorker.frames. rewrite flat_map_app.
        fold (CameraWorker.frames out).
        destruct (neg_mod_step c k Hk) as [(Hz & Hm & Hm') | (Hnz & Hm & Hpos)].
        -- rewrite Hz, Hm. cbn [Z.eqb flat_map app]. destruct i as [|i]; [reflexivity|].
           replace (Z.to_nat 0 + S i * Z.to_nat k)%nat
             with (S (Z.to_nat (k - 1) + i * Z.to_nat k)) by lia.
           cbn [lookup list_lookup]. rewrite Hfr, Hm'. reflexivity.
        -- destruct (c mod k =? 0) eqn:Ec; [apply Z.eqb_eq in Ec; contradiction|].
           cbn [flat_map app]. rewrite Hfr, Hm.
           replace (Z.to_nat ((- (c + 1)) mod k + 1))
             with (S (Z.to_nat ((- (c + 1)) mod k))) by lia.
           reflexivity.
      * unfold CameraWorker.errors. rewrite flat_map_app.
        fold (CameraWorker.errors out). rewrite Herr.
        destruct (c mod k =? 0); reflexivity.
    + destruct (IH c Hr) as (out & Hloop & Hfr & Herr).
      cbn [CameraWorker.loop]. rewrite Hrun. cbn [negb]. rewrite Hloop.
      eexists. split; [reflexivity|]. split.
      * intros i. exact (Hfr i).
      * change (CameraWorker.errors (CameraWorker.camera_error "Failed to read frame" :: out))
          with ("Failed to read frame" :: CameraWorker.errors out).
        rewrite Herr. reflexivity.
Qed.

(** X1: while the capture only delivers or fails, a camera whose skip is
    [k] forwards the frames read at positions 0, k, 2k, ... and no other;
    a failed read is reported with one error and does not shift the count. *)
Theorem camera_forwards_every_kth (w : CameraWorker.t) (opens opens_0 : bool)
    (zero_division : string) (evs : list CameraWorker.Event) :
  opens || opens_0 = true →
  1 <= CameraWorker.frame_skip w →
  Spec.only_reads evs →
  (∀ i, CameraWorker.frames (CameraWorker.run w opens opens_0 zero_division evs).2 !! i
        = CameraWorker.frames_read evs !! (i * Z.to_nat (CameraWorker.frame_skip w))%nat)
  ∧ CameraWorker.errors (CameraWorker.run w opens opens_0 zero_division evs).2
    = repeat "Failed to read frame" (CameraWorker.failed_reads evs).
Proof.
  intros Ho Hk Hr. unfold CameraWorker.run. rewrite Ho.
  destruct (loop_only_reads evs (CameraWorker.set_running w true) 0 eq_refl Hk Hr)
    as (out & Hloop & Hfr & Herr).
  rewrite Hloop. cbn [snd]. rewrite app_nil_r. split.
  - intros i. change (CameraWorker.frames (CameraWorker.camera_status _ :: out))
      with (CameraWorker.frames out).
    rewrite Hfr. cbn [CameraWorker.set_running CameraWorker.frame_skip].
    rewrite Z.mod_0_l by lia. reflexivity.
  - exact Herr.
Qed.

Lemma camera_forwards_every_kth_witness :
  (∀ i, CameraWorker.frames (CameraWorker.run TestLib.camera true false "" TestLib.reads).2 !! i
        = CameraWorker.frames_read TestLib.reads
            !! (i * Z.to_nat (CameraWorker.frame_skip TestLib.camera))%nat)
  ∧ CameraWorker.errors (CameraWorker.run TestLib.camera true false "" TestLib.reads).2
    = repeat "Failed to read frame" (CameraWorker.failed_reads TestLib.reads).
Proof.
  apply (camera_forwards_every_kth TestLib.camera true false "" TestLib.reads).
  - reflexivity.
  - vm_compute. discriminate.
  - repeat constructor.
Defined.

Example camera_forwards_first_and_third :
  CameraWorker.frames (CameraWorker.run TestLib.camera true false "" TestLib.reads).2
  = [[TestLib.face 1]; [TestLib.face 3]].
Proof. reflexivity. Qed.

Lemma set_frame_skip_floor (w : CameraWorker.t) (skip : Z) :
  1 <= CameraWorker.frame_skip (CameraWorker.set_frame_skip w skip).
Proof.
  simpl. destruct (1 <? skip) eqn:E; [apply Z.ltb_lt in E|]; lia.
Qed.

Lemma loop_skip_floor (evs : list CameraWorker.Event) (w : CameraWorker.t) (c : Z) :
  1 <= CameraWorker.frame_skip w →
  (CameraWorker.loop w c evs).2 ≠ CameraWorker.Raised
  ∧ 1 <= CameraWorker.frame_skip (CameraWorker.loop w c evs).1.1.
Proof.
  revert w c. induction evs as [|ev evs IH]; intros w c Hk.
  - simpl. split; [destruct (CameraWorker.running w); discriminate | assumption].
  - cbn [CameraWorker.loop]. destruct (CameraWorker.running w); cbn [negb];
      [|split; [discriminate | assumption]].
    destruct ev as [[f|]| skip |].
    + destruct (CameraWorker.frame_skip w =? 0) eqn:E0; [apply Z.eqb_eq in E0; lia|].
      specialize (IH w (c + 1) Hk).
      destruct (CameraWorker.loop w (c + 1) evs) as [[w' out] ex]. exact IH.
    + specialize (IH w c Hk).
      destruct (CameraWorker.loop w c evs) as [[w' out] ex]. exact IH.
    + apply IH. apply set_frame_skip_floor.
    + apply IH. exact Hk.
Qed.

(** X2: the skip set by [set_frame_skip] is at least 1 whatever is asked
    for, the loop keeps it so, and then [frame_count % self.frame_skip]
    never divides by zero: the loop is not left by that error. *)
Theorem camera_never_divides_by_zero (w : CameraWorker.t) (skip c : Z)
    (evs : list CameraWorker.Event) :
  1 <= CameraWorker.frame_skip w →
  1 <= CameraWorker.frame_skip (CameraWorker.set_frame_skip w skip)
  ∧ (CameraWorker.loop w c evs).2 ≠ CameraWorker.Raised
  ∧ 1 <= CameraWorker.frame_skip (CameraWorker.loop w c evs).1.1
  ∧ (CameraWorker.loop (CameraWorker.set_frame_skip w skip) c evs).2 ≠ CameraWorker.Raised.
Proof.
  intros Hk. split; [apply set_frame_skip_floor|].
  destruct (loop_skip_floor evs w c Hk) as [Hne Hfl].
  split; [assumption|]. split; [assumption|].
  apply loop_skip_floor. apply set_frame_skip_floor.
Qed.

Lemma camera_never_divides_by_zero_witness :
  1 <= CameraWorker.frame_skip (CameraWorker.set_frame_skip (CameraWorker.init 0) (-3))
  ∧ (CameraWorker.loop (CameraWorker.init 0) 0 TestLib.reads).2 ≠ CameraWorker.Raised
  ∧ 1 <= CameraWorker.frame_skip (CameraWorker.loop (CameraWorker.init 0) 0 TestLib.reads).1.1
  ∧ (CameraWorker.loop (CameraWorker.set_frame_skip (CameraWorker.init 0) (-3)) 0
       TestLib.reads).2 ≠ CameraWorker.Raised.
Proof.
  apply (camera_never_divides_by_zero (CameraWorker.init 0) (-3) 0 TestLib.reads).
  vm_compute. discriminate.
Defined.




(** ** The session summary *)

Lemma fresh_run_size (S0 S1 : gset string) (l : list string) :
  Spec.fresh_run S0 S1 l →
  size S1 = (size S0 + length l)%nat ∧ elements S1 ≡ₚ elements S0 ++ l.
Proof.
  intros (Hnd & Hfresh & ->).
  assert (Hdisj : S0 ## list_to_set l).
  { intros x Hx Hl. apply elem_of_list_to_set in Hl. exact (Hfresh x Hl Hx). }
  split.
  - rewrite size_union by assumption. rewrite size_list_to_set by assumption. reflexivity.
  - rewrite elements_disj_union by assumption.
    rewrite elements_list_to_set by assumption. reflexivity.
Qed.

(** X4: over a stretch of a session without [reset_session], the counts of
    [get_session_summary] grow by the number of known events and of unknown
    events emitted, and the names it lists are those it listed before and
    those of the known events emitted, each once. *)
Theorem session_summary_counts `{FaceLib} (s : DetectionWorker.Sched)
    (evs : list DetectionWorker.Event) :
  Spec.no_reset evs →
  let before := DetectionWorker.get_session_summary (DetectionWorker.worker s) in
  let after :=
    DetectionWorker.get_session_summary
      (DetectionWorker.worker (DetectionWorker.exec s evs).1) in
  let ds := DetectionWorker.emitted (DetectionWorker.exec s evs).2 in
  DetectionWorker.known_faces after
  = (DetectionWorker.known_faces before + length (Spec.known_names ds))%nat
  ∧ DetectionWorker.unknown_faces after
    = (DetectionWorker.unknown_faces before + length (Spec.unknown_hashes ds))%nat
  ∧ DetectionWorker.total_detections after
    = (DetectionWorker.total_detections before
       + length (Spec.known_names ds) + length (Spec.unknown_hashes ds))%nat
  ∧ DetectionWorker.known_names after
    ≡ₚ DetectionWorker.known_names before ++ Spec.known_names ds.
Proof.
  intros Hnr. destruct (exec_emits evs s Hnr) as [Hk Hu].
  apply fresh_run_size in Hk as [Hks Hkp]. apply fresh_run_size in Hu as [Hus _].
  cbn zeta. unfold DetectionWorker.get_session_summary.
  cbn [DetectionWorker.known_faces DetectionWorker.unknown_faces
       DetectionWorker.total_detections DetectionWorker.known_names].
  split; [exact Hks|]. split; [exact Hus|]. split; [lia | exact Hkp].
Qed.

Lemma session_summary_counts_witness :
  let before := DetectionWorker.get_session_summary (DetectionWorker.worker TestLib.start) in
  let after :=
    DetectionWorker.get_session_summary
      (DetectionWorker.worker
         (DetectionWorker.exec (H := TestLib.lib) TestLib.start TestLib.trace).1) in
  let ds :=
    DetectionWorker.emitted
      (DetectionWorker.exec (H := TestLib.lib) TestLib.start TestLib.trace).2 in
  DetectionWorker.known_faces after
  = (DetectionWorker.known_faces before + length (Spec.known_names ds))%nat
  ∧ DetectionWorker.unknown_faces after
    = (DetectionWorker.unknown_faces before + length (Spec.unknown_hashes ds))%nat
  ∧ DetectionWorker.total_detections after
    = (DetectionWorker.total_detections before
       + length (Spec.known_names ds) + length (Spec.unknown_hashes ds))%nat
  ∧ DetectionWorker.known_names after
    ≡ₚ DetectionWorker.known_names before ++ Spec.known_names ds.
Proof.
  apply (session_summary_counts (H := TestLib.lib) TestLib.start TestLib.trace).
  repeat constructor; discriminate.
Defined.

(** ** Frames that arrive during a processing *)

(** X5: the frames queued between the hand-over of a frame to
    [process_frame] and the stamp that follows are dropped by the clearing of
    the slot: the slot is empty after the stamp and whatever is processed
    later was queued later. *)
Theorem queued_during_processing_dropped `{FaceLib} (s : DetectionWorker.Sched)
    (fs : list Image) (now : Q) (evs : list DetectionWorker.Event) :
  DetectionWorker.pc s = DetectionWorker.AtStamp →
  DetectionWorker.pending_frame
    (DetectionWorker.worker
       (DetectionWorker.exec s
          (List.map DetectionWorker.Queue fs ++ [DetectionWorker.Clock now])).1) = None
  ∧ DetectionWorker.processed_frames
      (DetectionWorker.exec s
         (List.map DetectionWorker.Queue fs ++ DetectionWorker.Clock now :: evs)).2
    `sublist_of` DetectionWorker.queued_frames evs.
Proof.
  intros Hpc. destruct s as [w p]. simpl in Hpc. subst p.
  rewrite !exec_app, !exec_queues. cbn [DetectionWorker.pc DetectionWorker.worker].
  split; [reflexivity|].
  cbn [DetectionWorker.exec DetectionWorker.step DetectionWorker.pc DetectionWorker.worker].
  match goal with |- context [DetectionWorker.exec ?s0 evs] =>
    pose proof (exec_slot evs s0) as Hs; destruct (DetectionWorker.exec s0 evs) as [s2 o2] end.
  cbn [fst snd app] in *. unfold Spec.slot at 2 in Hs. simpl in Hs.
  etrans; [|exact Hs]. apply sublist_inserts_r. reflexivity.
Qed.

Lemma queued_during_processing_dropped_witness :
  DetectionWorker.pending_frame
    (DetectionWorker.worker
       (DetectionWorker.exec (H := TestLib.lib)
          {| DetectionWorker.worker := TestLib.worker; DetectionWorker.pc := DetectionWorker.AtStamp |}
          (List.map DetectionWorker.Queue [TestLib.frame] ++ [DetectionWorker.Clock 11])).1)
  = None
  ∧ DetectionWorker.processed_frames
      (DetectionWorker.exec (H := TestLib.lib)
         {| DetectionWorker.worker := TestLib.worker; DetectionWorker.pc := DetectionWorker.AtStamp |}
         (List.map DetectionWorker.Queue [TestLib.frame]
            ++ DetectionWorker.Clock 11 :: [DetectionWorker.Clock 20])).2
    `sublist_of` DetectionWorker.queued_frames [DetectionWorker.Clock 20].
Proof.
  apply (queued_during_processing_dropped (H := TestLib.lib)
           {| DetectionWorker.worker := TestLib.worker;
              DetectionWorker.pc := DetectionWorker.AtStamp |}
           [TestLib.frame] 11 [DetectionWorker.Clock 20]).
  reflexivity.
Defined.

(** ** What a result holds *)

Section Results.
Context `{FaceLib}.
Import DetectionWorker.

(** No entry comes out and the worker is as it was. *)
Ltac no_detection := split; [reflexivity|]; split; [reflexivity|]; discriminate.

Lemma single_face_detection (w : t) (enc : FaceEncoding) (loc : Location) (frame : Image) :
  known_face_names (_process_single_face w enc loc frame).1 = known_face_names w
  ∧ known_face_encodings (_process_single_face w enc loc frame).1 = known_face_encodings w
  ∧ ∀ d, (_process_single_face w enc loc frame).2 = Some d →
         Spec.well_formed (known_face_names w) frame d.
Proof.
  assert (Hu : known_face_names (_process_unknown_face w (Np.crop frame loc) loc enc).1
               = known_face_names w
               ∧ known_face_encodings (_process_unknown_face w (Np.crop frame loc) loc enc).1
                 = known_face_encodings w
               ∧ ∀ d, (_process_unknown_face w (Np.crop frame loc) loc enc).2 = Some d →
                      Spec.well_formed (known_face_names w) frame d).
  { unfold _process_unknown_face. destruct (decide _); cbn [fst snd].
    - no_detection.
    - split; [reflexivity|]. split; [reflexivity|]. intros d [= <-].
      split; [reflexivity|]. split; [right; repeat split; reflexivity|].
      exists enc. reflexivity. }
  unfold _process_single_face.
  destruct (length (known_face_encodings w) =? 0)%nat; [exact Hu|].
  destruct (Np.argmin _) as [i|]; [|no_detection].
  destruct (nth_error _ i) as [dist|]; [|no_detection].
  destruct (Np.Qltb dist DetectionWorker.threshold); [|exact Hu].
  destruct (nth_error (known_face_names w) i) as [n|] eqn:En;
    [|no_detection].
  unfold _process_known_face. destruct (decide _); cbn [fst snd].
  - no_detection.
  - split; [reflexivity|]. split; [reflexivity|]. intros d [= <-].
    split; [reflexivity|]. split.
    + left. split; [reflexivity|]. split; [|reflexivity]. cbn [name].
      rewrite nth_error_lookup in En. apply list_elem_of_lookup. exists i. exact En.
    + exists enc. reflexivity.
Qed.

Lemma process_faces_detections (frame : Image) (faces : list (FaceEncoding * Location))
    (w : t) :
  known_face_names (process_faces w frame faces).1 = known_face_names w
  ∧ known_face_encodings (process_faces w frame faces).1 = known_face_encodings w
  ∧ Forall (Spec.well_formed (known_face_names w) frame) (process_faces w frame faces).2
  ∧ (length (process_faces w frame faces).2 ≤ length faces)%nat.
Proof.
  revert w. induction faces as [|[enc loc] rest IH]; intros w.
  - simpl. split; [reflexivity|]. split; [reflexivity|]. split; [constructor | lia].
  - cbn [process_faces].
    destruct (single_face_detection w enc loc frame) as (Hn1 & He1 & Hwf1).
    destruct (_process_single_face w enc loc frame) as [w1 r]. cbn [fst snd] in *.
    destruct (IH w1) as (Hn2 & He2 & Hwf2 & Hlen).
    destruct (process_faces w1 frame rest) as [w2 rs]. cbn [fst snd] in *.
    rewrite Hn1 in Hn2, Hwf2. rewrite He1 in He2.
    split; [assumption|]. split; [assumption|].
    destruct r as [d|]; cbn [length].
    + split; [constructor; [apply Hwf1; reflexivity | assumption] | lia].
    + split; [assumption | lia].
Qed.

End Results.

(** X6: processing a frame leaves the registered encodings and names
    alone, whether or not a result comes out of it. A result is never empty
    and never sent by a worker that is not running; it holds no more entries
    than faces were found, bears the time given, and each entry is well
    formed: a known entry carries a registered name and "Present", an
    unknown one "Unknown", the crop is the face box cut out of the frame. *)
Theorem process_frame_result `{FaceLib} (w : DetectionWorker.t) (frame : Image) (now : Q) :
  DetectionWorker.known_face_names (DetectionWorker.process_frame w frame now).1
  = DetectionWorker.known_face_names w
  ∧ DetectionWorker.known_face_encodings (DetectionWorker.process_frame w frame now).1
    = DetectionWorker.known_face_encodings w
  ∧ ∀ res : DetectionWorker.Result,
      (DetectionWorker.process_frame w frame now).2 = Some res →
      DetectionWorker.running w = true
      ∧ DetectionWorker.detections res ≠ []
      ∧ (length (DetectionWorker.detections res) ≤ DetectionWorker.total_faces res)%nat
      ∧ DetectionWorker.timestamp res = now
      ∧ Forall (Spec.well_formed (DetectionWorker.known_face_names w) frame)
               (DetectionWorker.detections res).
Proof.
  unfold DetectionWorker.process_frame.
  destruct (DetectionWorker.running w); cbn [negb];
    [|split; [reflexivity|]; split; [reflexivity|]; intros res; discriminate].
  destruct (Np.cvtColor_BGR2RGB frame) as [rgb|];
    [|split; [reflexivity|]; split; [reflexivity|]; intros res; discriminate].
  match goal with |- context [DetectionWorker.process_faces w frame ?fs] =>
    pose proof (process_faces_detections frame fs w) as (Hn & He & Hwf & Hlen);
    assert (Hfs : (length fs ≤ length (List.map DetectionWorker.scale4
                                         (face_locations (resize_quarter rgb))))%nat)
      by (rewrite length_combine; lia);
    destruct (DetectionWorker.process_faces w frame fs) as [w' ds] end.
  cbn [fst snd] in *. split; [assumption|]. split; [assumption|].
  intros res. destruct ds as [|d ds]; [discriminate|].
  intros [= <-]. cbn [DetectionWorker.detections DetectionWorker.total_faces
                      DetectionWorker.timestamp].
  split; [reflexivity|]. split; [discriminate|]. split; [lia|].
  split; [reflexivity | assumption].
Qed.

Lemma process_frame_result_witness :
  DetectionWorker.known_face_names
    (DetectionWorker.process_frame (H := TestLib.lib)
       (DetectionWorker.worker TestLib.start) TestLib.frame 10).1
  = DetectionWorker.known_face_names (DetectionWorker.worker TestLib.start)
  ∧ DetectionWorker.known_face_encodings
      (DetectionWorker.process_frame (H := TestLib.lib)
         (DetectionWorker.worker TestLib.start) TestLib.frame 10).1
    = DetectionWorker.known_face_encodings (DetectionWorker.worker TestLib.start)
  ∧ ∃ res,
      (DetectionWorker.process_frame (H := TestLib.lib)
         (DetectionWorker.worker TestLib.start) TestLib.frame 10).2 = Some res
      ∧ DetectionWorker.running (DetectionWorker.worker TestLib.start) = true
      ∧ DetectionWorker.detections res ≠ []
      ∧ (length (DetectionWorker.detections res) ≤ DetectionWorker.total_faces res)%nat
      ∧ DetectionWorker.timestamp res = 10%Q
      ∧ Forall (Spec.well_formed
                  (DetectionWorker.known_face_names (DetectionWorker.worker TestLib.start))
                  TestLib.frame)
               (DetectionWorker.detections res).
Proof.
  destruct (process_frame_result (H := TestLib.lib) (DetectionWorker.worker TestLib.start)
              TestLib.frame 10) as (Hn & He & Hres).
  split; [exact Hn|]. split; [exact He|].
  eexists. split; [reflexivity|]. apply Hres. reflexivity.
Defined.

(** A worker that is not running, or a frame that cannot be converted,
    gives no result and leaves the worker as it was. *)
Example process_frame_not_running :
  DetectionWorker.running TestLib.worker = false
  ∧ DetectionWorker.process_frame (H := TestLib.lib) TestLib.worker TestLib.frame 10
    = (TestLib.worker, None)
  ∧ DetectionWorker.process_frame (H := TestLib.lib)
      (DetectionWorker.worker TestLib.start) [] 10
    = (DetectionWorker.worker TestLib.start, None).
Proof. repeat split. Qed.

(** ** The processing status *)

Section Status.
Context `{FaceLib}.
Import DetectionWorker.

(** A step either leaves the stamp alone, starting a processing or not,
    or it is the stamp after a processing. *)
Lemma step_flight (s : Sched) (ev : Event) :
  (last_processing_time (worker (step s ev).1) = last_processing_time (worker s)
   ∧ Spec.in_flight (step s ev).1 = (Spec.in_flight s + length (step s ev).2)%nat)
  ∨ (∃ now, ev = Clock now ∧ last_processing_time (worker (step s ev).1) = now
            ∧ Spec.in_flight s = 1%nat ∧ Spec.in_flight (step s ev).1 = 0%nat ∧ (step s ev).2 = []).
Proof.
  destruct s as [w p]. destruct ev as [f|x| |es ns|now];
    try (left; unfold Spec.in_flight; simpl; split; [reflexivity | lia]).
  destruct p.
  - left. cbn [step pc worker].
    destruct (pending_frame w) as [f|];
      [|unfold Spec.in_flight; simpl; split; [reflexivity | lia]].
    destruct (should_process_frame w now);
      [|unfold Spec.in_flight; simpl; split; [reflexivity | lia]].
    pose proof (process_frame_timing w f now) as [_ Hl].
    destruct (process_frame w f now) as [w' r]. cbn [fst snd] in *.
    unfold Spec.in_flight. simpl. split; [exact Hl | reflexivity].
  - right. exists now. unfold Spec.in_flight. simpl. repeat split; reflexivity.
Qed.

Lemma exec_flight (evs : list Event) (s : Sched) :
  (Spec.in_flight (exec s evs).1 ≤ Spec.in_flight s + length (exec s evs).2)%nat.
Proof.
  revert s. induction evs as [|ev evs IH]; intros s; [simpl; lia|].
  cbn [exec]. pose proof (step_flight s ev) as Hst.
  destruct (step s ev) as [s1 o1]. specialize (IH s1).
  destruct (exec s1 evs) as [s2 o2]. cbn [fst snd] in *. rewrite length_app.
  destruct Hst as [[_ Hf] | (now & _ & _ & Hf0 & Hf1 & ->)]; simpl in *; lia.
Qed.

Lemma exec_stamped (evs : list Event) (s : Sched) :
  Spec.positive_clock evs →
  (0 < last_processing_time (worker (exec s evs).1))%Q
  ↔ (0 < last_processing_time (worker s))%Q
    ∨ (Spec.in_flight (exec s evs).1 + 1 ≤ Spec.in_flight s + length (exec s evs).2)%nat.
Proof.
  revert s. induction evs as [|ev evs IH]; intros s Hpos.
  - simpl. split; [auto|]. intros [Hl|Hl]; [assumption | lia].
  - cbn [exec]. pose proof (step_flight s ev) as Hst.
    assert (Hpos' : Spec.positive_clock evs).
    { unfold Spec.positive_clock in *. destruct ev; simpl in Hpos; try assumption.
      apply Forall_cons in Hpos as [_ Hpos]. assumption. }
    destruct (step s ev) as [s1 o1].
    pose proof (exec_flight evs s1) as Hfl. specialize (IH s1 Hpos').
    destruct (exec s1 evs) as [s2 o2].
    cbn [fst snd] in *. rewrite length_app.
    destruct Hst as [[Hl Hf] | (now & -> & Hl & Hf0 & Hf1 & ->)].
    + rewrite Hl, Hf in IH. rewrite IH.
      split; (intros [Hc|Hc]; [left; assumption | right; lia]).
    + unfold Spec.positive_clock in Hpos. simpl in Hpos.
      apply Forall_cons in Hpos as [Hnow _]. rewrite Hl in IH.
      split; [intros _; right; simpl; lia | intros _; apply IH; left; assumption].
Qed.

End Status.

(** X7: for a worker that has not processed yet, on a clock whose readings
    are positive, the ['frames_processed'] entry of [get_processing_status]
    is true exactly when a processing has been carried through to its stamp;
    a processing still in flight does not count. *)
Theorem frames_processed_flag `{FaceLib} (s : DetectionWorker.Sched)
    (evs : list DetectionWorker.Event) (current_time : Q) :
  DetectionWorker.pc s = DetectionWorker.AtCheck →
  (DetectionWorker.last_processing_time (DetectionWorker.worker s) <= 0)%Q →
  Spec.positive_clock evs →
  DetectionWorker.frames_processed
    (DetectionWorker.get_processing_status
       (DetectionWorker.worker (DetectionWorker.exec s evs).1) current_time) = true
  ↔ (1 ≤ Spec.completed (DetectionWorker.exec s evs).1 (DetectionWorker.exec s evs).2)%nat.
Proof.
  intros Hpc Hlast Hpos. cbn [DetectionWorker.get_processing_status
                               DetectionWorker.frames_processed].
  rewrite Qltb_lt, (exec_stamped evs s Hpos).
  unfold Spec.completed, Spec.in_flight. rewrite Hpc. cbn [Spec.at_check].
  split.
  - intros [Hl|Hc]; [lra|]. destruct (Spec.at_check _); lia.
  - intros Hc. right. destruct (Spec.at_check _); lia.
Qed.

Lemma frames_processed_flag_witness :
  DetectionWorker.frames_processed
    (DetectionWorker.get_processing_status
       (DetectionWorker.worker
          (DetectionWorker.exec (H := TestLib.lib) TestLib.start TestLib.trace).1) 15) = true
  ↔ (1 ≤ Spec.completed
           (DetectionWorker.exec (H := TestLib.lib) TestLib.start TestLib.trace).1
           (DetectionWorker.exec (H := TestLib.lib) TestLib.start TestLib.trace).2)%nat.
Proof.
  apply (frames_processed_flag (H := TestLib.lib) TestLib.start TestLib.trace 15).
  - reflexivity.
  - vm_compute. discriminate.
  - repeat constructor.
Defined.

(** ** The shape of a detection hash *)

Lemma le_bytes_bytes (n : nat) (x : Z) :
  length (MD5.le_bytes n x) = n ∧ Forall (fun b => 0 <= b < 256) (MD5.le_bytes n x).
Proof.
  revert x. induction n as [|n IH]; intros x; [split; [reflexivity | constructor]|].
  cbn [MD5.le_bytes]. destruct (IH (Z.shiftr x 8)) as [Hl Hf]. split.
  - simpl. rewrite Hl. reflexivity.
  - constructor; [|assumption].
    change 255 with (Z.ones 8). rewrite Z.land_ones by lia.
    apply Z.mod_pos_bound. lia.
Qed.

Lemma digest_bytes (msg : list Z) :
  length (MD5.digest msg) = 16%nat ∧ Forall (fun b => 0 <= b < 256) (MD5.digest msg).
Proof.
  unfold MD5.digest. destruct (fold_left _ _ _) as [[[a b] c] d].
  pose proof (le_bytes_bytes 4 a) as [La Fa]. pose proof (le_bytes_bytes 4 b) as [Lb Fb].
  pose proof (le_bytes_bytes 4 c) as [Lc Fc]. pose proof (le_bytes_bytes 4 d) as [Ld Fd].
  split.
  - rewrite !length_app, La, Lb, Lc, Ld. reflexivity.
  - repeat (apply Forall_app; split); assumption.
Qed.

Lemma hex_digit_is_hex (z : Z) : 0 <= z < 16 → Spec.is_hex_digit (PyStr.hex_digit z).
Proof.
  intros Hz.
  assert (Hcases : z = 0 ∨ z = 1 ∨ z = 2 ∨ z = 3 ∨ z = 4 ∨ z = 5 ∨ z = 6 ∨ z = 7 ∨ z = 8
                   ∨ z = 9 ∨ z = 10 ∨ z = 11 ∨ z = 12 ∨ z = 13 ∨ z = 14 ∨ z = 15) by lia.
  unfold Spec.is_hex_digit.
  repeat (destruct Hcases as [-> | Hcases]; [vm_compute; tauto|]).
  subst z. vm_compute. tauto.
Qed.

Lemma hex_shape (bs : list Z) :
  Forall (fun b => 0 <= b < 256) bs →
  String.length (PyStr.hex bs) = (2 * length bs)%nat
  ∧ Forall Spec.is_hex_digit (list_ascii_of_string (PyStr.hex bs)).
Proof.
  induction 1 as [|b bs Hb Hbs [IHl IHf]]; [split; [reflexivity | constructor]|].
  cbn [PyStr.hex String.length list_ascii_of_string length]. split; [lia|].
  constructor; [|constructor; [|assumption]].
  - apply hex_digit_is_hex. rewrite Z.shiftr_div_pow2 by lia.
    change (2 ^ 4) with 16. split; [apply Z.div_pos; lia | apply Z.div_lt_upper_bound; lia].
  - apply hex_digit_is_hex. change 15 with (Z.ones 4). rewrite Z.land_ones by lia.
    apply Z.mod_pos_bound. lia.
Qed.

(** X8: a detection hash has 32 characters, each a lowercase hexadecimal
    digit, whatever the encoding and the name. *)
Theorem detection_hash_shape (face_encoding : FaceEncoding) (n : string) :
  String.length (DetectionWorker._generate_detection_hash face_encoding n) = 32%nat
  ∧ Forall Spec.is_hex_digit
      (list_ascii_of_string (DetectionWorker._generate_detection_hash face_encoding n)).
Proof.
  unfold DetectionWorker._generate_detection_hash, MD5.hexdigest.
  destruct (digest_bytes (PyStr.encode
              (n ++ "_" ++ PyStr.take 32 (PyStr.hex (Np.tobytes face_encoding)))%string))
    as [Hl Hf].
  destruct (hex_shape _ Hf) as [Hhl Hhf]. rewrite Hl in Hhl. split; assumption.
Qed.

(** ** The scan of the faces directory *)

Section Directory.
Context `{FaceLib}.
Import FaceManager.

Lemma load_faces_loop_spec (entries : list DirEntry) (fm : t) (wd : World) (c : nat) :
  known_face_names (load_faces_loop fm wd c entries).1.1
  = known_face_names fm
    ++ List.map (fun e => name_of_file (filename e)) (List.filter Spec.usable entries)
  ∧ known_face_encodings (load_faces_loop fm wd c entries).1.1
    = known_face_encodings fm ++ omap Spec.first_encoding entries
  ∧ (load_faces_loop fm wd c entries).2 = (c + length (List.filter Spec.usable entries))%nat
  ∧ listing (load_faces_loop fm wd c entries).1.2 = listing wd
  ∧ encodings_pkl (load_faces_loop fm wd c entries).1.2 = encodings_pkl wd
  ∧ (∀ n, is_Some (known_face_images fm !! n)
          ∨ n ∈ List.map (fun e => name_of_file (filename e)) (List.filter Spec.usable entries)
          → is_Some (known_face_images (load_faces_loop fm wd c entries).1.1 !! n)).
Proof.
  revert fm wd c. induction entries as [|e rest IH]; intros fm wd c.
  - simpl. rewrite !app_nil_r. repeat split; try reflexivity; try lia.
    intros n [Hn|Hn]; [assumption | inversion Hn].
  - assert (Hskip : Spec.first_encoding e = None →
                     ∀ wd1, listing wd1 = listing wd → encodings_pkl wd1 = encodings_pkl wd →
                     known_face_names (load_faces_loop fm wd1 c rest).1.1
                     = known_face_names fm
                       ++ List.map (fun e => name_of_file (filename e))
                            (List.filter Spec.usable (e :: rest))
                     ∧ known_face_encodings (load_faces_loop fm wd1 c rest).1.1
                       = known_face_encodings fm ++ omap Spec.first_encoding (e :: rest)
                     ∧ (load_faces_loop fm wd1 c rest).2
                       = (c + length (List.filter Spec.usable (e :: rest)))%nat
                     ∧ listing (load_faces_loop fm wd1 c rest).1.2 = listing wd
                     ∧ encodings_pkl (load_faces_loop fm wd1 c rest).1.2 = encodings_pkl wd
                     ∧ (∀ n, is_Some (known_face_images fm !! n)
                             ∨ n ∈ List.map (fun e => name_of_file (filename e))
                                    (List.filter Spec.usable (e :: rest))
                             → is_Some (known_face_images
                                          (load_faces_loop fm wd1 c rest).1.1 !! n))).
    { intros Hfe wd1 Hl1 Hp1.
      assert (Hu : Spec.usable e = false) by (unfold Spec.usable; rewrite Hfe; reflexivity).
      cbn [List.filter omap list_omap]. rewrite Hu, Hfe, <- Hl1, <- Hp1. apply IH. }
    cbn [load_faces_loop].
    destruct (is_file e) eqn:Ef; cbn [negb];
      [|apply Hskip; [unfold Spec.first_encoding; rewrite Ef | |]; reflexivity].
    destruct (supported_ext _) eqn:Es; cbn [negb];
      [|apply Hskip; [unfold Spec.first_encoding; rewrite Ef, Es | |]; reflexivity].
    destruct (loaded e) as [image|] eqn:El;
      [|apply Hskip; [unfold Spec.first_encoding; rewrite Ef, Es, El | |]; reflexivity].
    destruct (face_encodings image) as [|enc encs] eqn:Ee;
      [apply Hskip; [unfold Spec.first_encoding; rewrite Ef, Es, El, Ee | |]; reflexivity|].
    assert (Hfe : Spec.first_encoding e = Some enc)
      by (unfold Spec.first_encoding; rewrite Ef, Es, El, Ee; reflexivity).
    assert (Hu : Spec.usable e = true) by (unfold Spec.usable; rewrite Hfe; reflexivity).
    clear Hskip. cbn [List.filter omap list_omap]. rewrite Hu, Hfe.
    match goal with |- context [load_faces_loop ?fm1 ?wd1 ?c1 rest] =>
      destruct (IH fm1 wd1 c1) as (Hn & He & Hc & Hl & Hp & Hi) end.
    cbn [known_face_names known_face_encodings known_face_images with_registry
         logger listing encodings_pkl] in *.
    rewrite Hn, He, Hc, Hl, Hp. cbn [List.map length]. rewrite <- !app_assoc.
    split; [reflexivity|]. split; [reflexivity|]. split; [lia|].
    split; [reflexivity|]. split; [reflexivity|].
    intros n Hor. apply Hi.
    destruct (decide (n = name_of_file (filename e))) as [->|Hne].
    + left. rewrite lookup_insert_eq. eauto.
    + destruct Hor as [Hs|Hin].
      * left. rewrite lookup_insert_ne by congruence. assumption.
      * apply elem_of_cons in Hin as [?|Hin]; [contradiction | right; assumption].
Qed.

Lemma omap_first_encoding_length (entries : list DirEntry) :
  length (omap Spec.first_encoding entries) = length (List.filter Spec.usable entries).
Proof.
  induction entries as [|e rest IH]; [reflexivity|].
  cbn [omap list_omap List.filter]. unfold Spec.usable at 1.
  destruct (Spec.first_encoding e); simpl; lia.
Qed.

End Directory.

Lemma load_known_faces_lists `{FaceLib} (fm : FaceManager.t)
    (wd : FaceManager.World) :
  FaceManager.known_face_names (FaceManager._load_known_faces fm wd).1
  = FaceManager.known_face_names fm
    ++ List.map (fun e => FaceManager.name_of_file (FaceManager.filename e))
         (List.filter Spec.usable (FaceManager.listing wd))
  ∧ FaceManager.known_face_encodings (FaceManager._load_known_faces fm wd).1
    = FaceManager.known_face_encodings fm
      ++ omap Spec.first_encoding (FaceManager.listing wd)
  ∧ length (omap Spec.first_encoding (FaceManager.listing wd))
    = length (List.filter Spec.usable (FaceManager.listing wd))
  ∧ FaceManager.encodings_pkl (FaceManager._load_known_faces fm wd).2
    = FaceManager.encodings_pkl wd.
Proof.
  unfold FaceManager._load_known_faces.
  destruct (load_faces_loop_spec (FaceManager.listing wd) fm wd 0)
    as (Hn & He & _ & _ & Hp & _).
  destruct (FaceManager.load_faces_loop fm wd 0 (FaceManager.listing wd)) as [[fm1 wd1] c1].
  cbn [fst snd FaceManager.logger FaceManager.encodings_pkl] in *.
  split; [exact Hn|]. split; [exact He|]. split; [apply omap_first_encoding_length | exact Hp].
Qed.

(** X9: [_load_known_faces] adds, in the order of the listing, one name
    and one encoding for each regular file of a supported extension that can
    be decoded and shows a face, and nothing for any other entry; the name is
    the file's stem up to its first underscore, the encoding the first one
    found. Each name added has an image for its thumbnail, the count logged
    is the number of files taken in, and the directory and the snapshot are
    not touched. *)
Theorem load_known_faces_takes_usable_files `{FaceLib} (fm : FaceManager.t)
    (wd : FaceManager.World) :
  let taken := List.filter Spec.usable (FaceManager.listing wd) in
  let fm' := (FaceManager._load_known_faces fm wd).1 in
  let wd' := (FaceManager._load_known_faces fm wd).2 in
  FaceManager.known_face_names fm'
  = FaceManager.known_face_names fm
    ++ List.map (fun e => FaceManager.name_of_file (FaceManager.filename e)) taken
  ∧ FaceManager.known_face_encodings fm'
    = FaceManager.known_face_encodings fm
      ++ omap Spec.first_encoding (FaceManager.listing wd)
  ∧ length (omap Spec.first_encoding (FaceManager.listing wd)) = length taken
  ∧ (∀ e, e ∈ taken →
          is_Some (FaceManager.known_face_images fm'
                     !! FaceManager.name_of_file (FaceManager.filename e)))
  ∧ last (FaceManager.log wd')
    = Some (FaceManager.INFO,
            ("Successfully loaded " ++ pretty (length taken) ++ " faces")%string)
  ∧ FaceManager.listing wd' = FaceManager.listing wd
  ∧ FaceManager.encodings_pkl wd' = FaceManager.encodings_pkl wd.
Proof.
  cbn zeta. unfold FaceManager._load_known_faces.
  destruct (load_faces_loop_spec (FaceManager.listing wd) fm wd 0)
    as (Hn & He & Hc & Hl & Hp & Hi).
  destruct (FaceManager.load_faces_loop fm wd 0 (FaceManager.listing wd)) as [[fm1 wd1] c1].
  cbn [fst snd FaceManager.logger FaceManager.log FaceManager.listing
       FaceManager.encodings_pkl] in *.
  split; [exact Hn|]. split; [exact He|]. split; [apply omap_first_encoding_length|].
  split.
  - intros e He'. apply Hi. right. apply list_elem_of_fmap. exists e. split; [reflexivity|].
    exact He'.
  - split; [|split; assumption]. rewrite last_snoc, Hc. reflexivity.
Qed.

(** ** Invariants of the registry *)

Section Invariants.
Context `{FaceLib}.
Import FaceManager.

Lemma load_known_faces_parallel (fm : t) (wd : World) :
  Spec.parallel fm → Spec.parallel (_load_known_faces fm wd).1.
Proof.
  unfold Spec.parallel, _load_known_faces. intros Hp.
  destruct (load_faces_loop_spec (listing wd) fm wd 0) as (Hn & He & _).
  destruct (load_faces_loop fm wd 0 (listing wd)) as [[fm1 wd1] c1]. cbn [fst snd] in *.
  rewrite Hn, He, !length_app, length_map, omap_first_encoding_length. lia.
Qed.

Lemma load_known_faces_snapshot (fm : t) (wd : World) :
  encodings_pkl (_load_known_faces fm wd).2 = encodings_pkl wd.
Proof.
  unfold _load_known_faces.
  destruct (load_faces_loop_spec (listing wd) fm wd 0) as (_ & _ & _ & _ & Hp & _).
  destruct (load_faces_loop fm wd 0 (listing wd)) as [[fm1 wd1] c1]. exact Hp.
Qed.

Lemma load_persistent_parallel (fm : t) (wd : World) :
  Spec.parallel fm → Spec.snapshot_parallel wd →
  Spec.parallel (_load_persistent_encodings fm wd).1.
Proof.
  unfold Spec.parallel, Spec.snapshot_parallel. intros Hp Hs.
  destruct (encodings_pkl wd) as [|err|data] eqn:Epkl.
  - unfold _load_persistent_encodings. rewrite Epkl. exact Hp.
  - unfold _load_persistent_encodings. rewrite Epkl. exact Hp.
  - destruct (snapshot_replaces_lists fm wd data Epkl) as [He Hn]. rewrite He, Hn. exact Hs.
Qed.

Lemma remove_duplicates_parallel (fm : t) (wd : World) :
  Spec.parallel fm → Spec.parallel (_remove_duplicate_encodings fm wd).1.
Proof.
  unfold Spec.parallel. intros Hp.
  destruct (remove_duplicates_last_wins fm wd Hp) as (Hn & He & _).
  rewrite Hn, He. apply last_wins_names. exact Hp.
Qed.

Lemma refresh_lists (fm : t) (wd : World) :
  Spec.snapshot_parallel wd →
  Spec.parallel (refresh_faces fm wd).1 ∧ NoDup (known_face_names (refresh_faces fm wd).1).
Proof.
  intros Hs. unfold refresh_faces.
  assert (H0 : Spec.parallel (with_registry fm [] [] ∅)) by reflexivity.
  pose proof (load_known_faces_parallel _ wd H0) as H1.
  pose proof (load_known_faces_snapshot (with_registry fm [] [] ∅) wd) as Hpkl.
  destruct (_load_known_faces (with_registry fm [] [] ∅) wd) as [fm1 wd1]. cbn [fst snd] in *.
  assert (Hs1 : Spec.snapshot_parallel wd1) by (unfold Spec.snapshot_parallel; rewrite Hpkl; exact Hs).
  pose proof (load_persistent_parallel fm1 wd1 H1 Hs1) as H2.
  destruct (_load_persistent_encodings fm1 wd1) as [fm2 wd2]. cbn [fst snd] in *.
  pose proof (remove_duplicates_parallel fm2 wd2 H2) as H3.
  destruct (remove_duplicates_last_wins fm2 wd2 H2) as (_ & _ & Hnd & _).
  destruct (_remove_duplicate_encodings fm2 wd2) as [fm3 wd3]. cbn [fst snd] in *.
  split; assumption.
Qed.

Lemma register_lists (fm : t) (wd : World) (io : IO) (face_crop : Image) (h name : string) :
  (Spec.parallel fm → Spec.parallel (register_unknown_face fm wd io face_crop h name).1.1)
  ∧ (NoDup (known_face_names fm) →
     NoDup (known_face_names (register_unknown_face fm wd io face_crop h name).1.1)).
Proof.
  destruct (register_unknown_face fm wd io face_crop h name).2 eqn:Eok.
  - apply register_success_inv in Eok as (_ & Hfresh & rgb & enc & encs & r & _ & _ & _ & ->).
    unfold Spec.parallel.
    cbn [known_face_names known_face_encodings with_registry]. split.
    + intros Hp. rewrite !length_app, Hp. reflexivity.
    + intros Hnd. apply NoDup_app. split; [assumption|]. split; [|apply NoDup_singleton].
      intros x Hx Hx'. apply list_elem_of_singleton in Hx'. subst x. contradiction.
  - rewrite (register_failure_unchanged fm wd io face_crop h name Eok). tauto.
Qed.

End Invariants.

(** X10: the two lists of the registry stay of equal length: after
    [__init__] and after [refresh_faces] when the snapshot, if there is one,
    holds lists of equal length, and after [register_unknown_face] and
    [_remove_duplicate_encodings] when they were before; the summary then
    counts as many faces as encodings. *)
Theorem registry_lists_parallel `{FaceLib} (fm : FaceManager.t) (wd : FaceManager.World)
    (io : FaceManager.IO) (face_crop : Image) (h name faces unknowns : string) :
  Spec.snapshot_parallel wd →
  Spec.parallel fm →
  Spec.parallel (FaceManager.init faces unknowns wd).1
  ∧ Spec.parallel (FaceManager.refresh_faces fm wd).1
  ∧ Spec.parallel (FaceManager.register_unknown_face fm wd io face_crop h name).1.1
  ∧ Spec.parallel (FaceManager._remove_duplicate_encodings fm wd).1
  ∧ FaceManager.total_faces
      (FaceManager.get_known_faces_summary (FaceManager.refresh_faces fm wd).1)
    = FaceManager.encodings_count
        (FaceManager.get_known_faces_summary (FaceManager.refresh_faces fm wd).1).
Proof.
  intros Hs Hp. split; [|split; [|split; [|split]]].
  - unfold FaceManager.init.
    match goal with |- context [FaceManager._load_known_faces ?fm0 wd] =>
      pose proof (load_known_faces_parallel fm0 wd eq_refl) as H1;
      pose proof (load_known_faces_snapshot fm0 wd) as Hpkl;
      destruct (FaceManager._load_known_faces fm0 wd) as [fm1 wd1] end.
    cbn [fst snd] in *. apply load_persistent_parallel; [exact H1|].
    unfold Spec.snapshot_parallel. rewrite Hpkl. exact Hs.
  - apply refresh_lists. exact Hs.
  - apply register_lists. exact Hp.
  - apply remove_duplicates_parallel. exact Hp.
  - apply (refresh_lists fm wd Hs).
Qed.

Lemma registry_lists_parallel_witness :
  Spec.parallel (FaceManager.init (H := TestLib.lib) "faces" "unknowns"
                   TestLib.world_alice_and_snapshot).1
  ∧ Spec.parallel (FaceManager.refresh_faces (H := TestLib.lib) TestLib.manager
                     TestLib.world_alice_and_snapshot).1
  ∧ Spec.parallel (FaceManager.register_unknown_face (H := TestLib.lib) TestLib.manager
                     TestLib.world_alice_and_snapshot TestLib.io_ok TestLib.frame
                     "0f3a" "Alice").1.1
  ∧ Spec.parallel (FaceManager._remove_duplicate_encodings TestLib.manager
                     TestLib.world_alice_and_snapshot).1
  ∧ FaceManager.total_faces
      (FaceManager.get_known_faces_summary
         (FaceManager.refresh_faces (H := TestLib.lib) TestLib.manager
            TestLib.world_alice_and_snapshot).1)
    = FaceManager.encodings_count
        (FaceManager.get_known_faces_summary
           (FaceManager.refresh_faces (H := TestLib.lib) TestLib.manager
              TestLib.world_alice_and_snapshot).1).
Proof.
  apply (registry_lists_parallel (H := TestLib.lib) TestLib.manager
           TestLib.world_alice_and_snapshot TestLib.io_ok TestLib.frame
           "0f3a" "Alice" "faces" "unknowns"); reflexivity.
Defined.

(** X11: names stay unique: [refresh_faces] leaves every name once when
    the snapshot, if there is one, holds lists of equal length, and
    [register_unknown_face] keeps the names pairwise distinct when they
    were. *)
Theorem registry_names_unique `{FaceLib} (fm : FaceManager.t) (wd : FaceManager.World)
    (io : FaceManager.IO) (face_crop : Image) (h name : string) :
  Spec.snapshot_parallel wd →
  NoDup (FaceManager.known_face_names fm) →
  NoDup (FaceManager.known_face_names (FaceManager.refresh_faces fm wd).1)
  ∧ NoDup (FaceManager.known_face_names
             (FaceManager.register_unknown_face fm wd io face_crop h name).1.1)
  ∧ NoDup (FaceManager.known_face_names
             (FaceManager.register_unknown_face (FaceManager.refresh_faces fm wd).1
                wd io face_crop h name).1.1).
Proof.
  intros Hs Hnd. destruct (refresh_lists fm wd Hs) as [_ Hr].
  split; [exact Hr|]. split; apply register_lists; assumption.
Qed.

Lemma registry_names_unique_witness :
  NoDup (FaceManager.known_face_names
           (FaceManager.refresh_faces (H := TestLib.lib) TestLib.manager
              TestLib.world_two_alices).1)
  ∧ NoDup (FaceManager.known_face_names
             (FaceManager.register_unknown_face (H := TestLib.lib) TestLib.manager
                TestLib.world_two_alices TestLib.io_ok TestLib.frame "0f3a" "Alice").1.1)
  ∧ NoDup (FaceManager.known_face_names
             (FaceManager.register_unknown_face (H := TestLib.lib)
                (FaceManager.refresh_faces (H := TestLib.lib) TestLib.manager
                   TestLib.world_two_alices).1
                TestLib.world_two_alices TestLib.io_ok TestLib.frame "0f3a" "Alice").1.1).
Proof.
  apply (registry_names_unique (H := TestLib.lib) TestLib.manager TestLib.world_two_alices
           TestLib.io_ok TestLib.frame "0f3a" "Alice").
  - exact I.
  - simpl. apply NoDup_singleton.
Defined.

(** ** Registration, then a reload *)

Lemma last_wins_nodup (ns : list string) (es : list FaceEncoding) :
  NoDup ns → length ns = length es → Spec.last_wins ns es = (ns, es).
Proof.
  intros Hnd. revert es. induction Hnd as [|n ns Hn Hnd IH]; intros [|e es] Hlen;
    try discriminate; [reflexivity|].
  injection Hlen as Hlen. cbn [Spec.last_wins]. rewrite (IH es Hlen).
  destruct (decide (n ∈ ns)); [contradiction | reflexivity].
Qed.

Lemma register_saved_snapshot `{FaceLib} (fm : FaceManager.t) (wd : FaceManager.World)
    (io : FaceManager.IO) (face_crop : Image) (h name : string) :
  (FaceManager.register_unknown_face fm wd io face_crop h name).2 = true →
  FaceManager.save_outcome io = FaceManager.Saved →
  FaceManager.encodings_pkl (FaceManager.register_unknown_face fm wd io face_crop h name).1.2
  = FaceManager.Pickled
      {| FaceManager.encodings :=
           FaceManager.known_face_encodings
             (FaceManager.register_unknown_face fm wd io face_crop h name).1.1;
         FaceManager.names :=
           FaceManager.known_face_names
             (FaceManager.register_unknown_face fm wd io face_crop h name).1.1;
         FaceManager.timestamp := FaceManager.isoformat_now io |}.
Proof.
  unfold FaceManager.register_unknown_face, FaceManager._save_persistent_encodings.
  destruct (PyStr.is_empty name || PyStr.is_empty (PyStr.strip name)); [discriminate|].
  destruct (decide _); [discriminate|].
  destruct (Np.cvtColor_BGR2RGB face_crop) as [rgb|]; [|discriminate].
  destruct (face_encodings rgb) as [|enc encs]; [discriminate|].
  destruct (FaceManager.imwrite_outcome io); try discriminate.
  intros _ Hsave. rewrite Hsave. reflexivity.
Qed.

(** X12: a registration whose snapshot is written survives a reload: if
    the names were pairwise distinct and as many as the encodings, then
    [refresh_faces], run on what the registration leaves on disk, ends with
    the very names and encodings the registration left in memory, the new
    one last. *)
Theorem register_then_refresh `{FaceLib} (fm : FaceManager.t) (wd : FaceManager.World)
    (io : FaceManager.IO) (face_crop : Image) (h name : string) :
  Spec.parallel fm →
  NoDup (FaceManager.known_face_names fm) →
  FaceManager.save_outcome io = FaceManager.Saved →
  (FaceManager.register_unknown_face fm wd io face_crop h name).2 = true →
  let fm1 := (FaceManager.register_unknown_face fm wd io face_crop h name).1.1 in
  let wd1 := (FaceManager.register_unknown_face fm wd io face_crop h name).1.2 in
  FaceManager.known_face_names (FaceManager.refresh_faces fm1 wd1).1
  = FaceManager.known_face_names fm1
  ∧ FaceManager.known_face_encodings (FaceManager.refresh_faces fm1 wd1).1
    = FaceManager.known_face_encodings fm1
  ∧ last (FaceManager.known_face_names (FaceManager.refresh_faces fm1 wd1).1)
    = Some (PyStr.strip name).
Proof.
  intros Hp Hnd Hsave Hok. cbn zeta.
  pose proof (register_saved_snapshot fm wd io face_crop h name Hok Hsave) as Hpkl.
  destruct (register_lists fm wd io face_crop h name) as [Hp1 Hnd1].
  specialize (Hp1 Hp). specialize (Hnd1 Hnd).
  assert (Hlast : last (FaceManager.known_face_names
                          (FaceManager.register_unknown_face fm wd io face_crop h name).1.1)
                  = Some (PyStr.strip name)).
  { apply register_success_inv in Hok as (_ & _ & rgb & enc & encs & r & _ & _ & _ & ->).
    cbn [FaceManager.known_face_names FaceManager.with_registry]. apply last_snoc. }
  destruct (FaceManager.register_unknown_face fm wd io face_crop h name) as [[fm1 wd1] ok].
  cbn [fst snd] in *.
  assert (Hgoal : FaceManager.known_face_names (FaceManager.refresh_faces fm1 wd1).1
                  = FaceManager.known_face_names fm1
                  ∧ FaceManager.known_face_encodings (FaceManager.refresh_faces fm1 wd1).1
                    = FaceManager.known_face_encodings fm1).
  { unfold FaceManager.refresh_faces.
    pose proof (load_known_faces_snapshot (FaceManager.with_registry fm1 [] [] ∅) wd1) as Hk.
    destruct (FaceManager._load_known_faces (FaceManager.with_registry fm1 [] [] ∅) wd1)
      as [fm2 wd2]. cbn [fst snd] in *. rewrite Hpkl in Hk.
    destruct (snapshot_replaces_lists fm2 wd2 _ Hk) as [He Hn].
    cbn [FaceManager.encodings FaceManager.names] in He, Hn.
    destruct (FaceManager._load_persistent_encodings fm2 wd2) as [fm3 wd3].
    cbn [fst snd] in *.
    assert (Hp3 : Spec.parallel fm3) by (unfold Spec.parallel; rewrite He, Hn; exact Hp1).
    destruct (remove_duplicates_last_wins fm3 wd3 Hp3) as (Hn4 & He4 & _).
    destruct (FaceManager._remove_duplicate_encodings fm3 wd3) as [fm4 wd4].
    cbn [fst snd] in *. rewrite Hn4, He4, Hn, He.
    rewrite (last_wins_nodup _ _ Hnd1 Hp1). split; reflexivity. }
  destruct Hgoal as [Hn He]. split; [exact Hn|]. split; [exact He|].
  rewrite Hn. exact Hlast.
Qed.

Lemma register_then_refresh_witness :
  let fm1 := (FaceManager.register_unknown_face (H := TestLib.lib) TestLib.manager
                TestLib.world TestLib.io_ok TestLib.frame "0f3a" " Alice ").1.1 in
  let wd1 := (FaceManager.register_unknown_face (H := TestLib.lib) TestLib.manager
                TestLib.world TestLib.io_ok TestLib.frame "0f3a" " Alice ").1.2 in
  FaceManager.known_face_names (FaceManager.refresh_faces (H := TestLib.lib) fm1 wd1).1
  = FaceManager.known_face_names fm1
  ∧ FaceManager.known_face_encodings (FaceManager.refresh_faces (H := TestLib.lib) fm1 wd1).1
    = FaceManager.known_face_encodings fm1
  ∧ last (FaceManager.known_face_names (FaceManager.refresh_faces (H := TestLib.lib) fm1 wd1).1)
    = Some (PyStr.strip " Alice ").
Proof.
  apply (register_then_refresh (H := TestLib.lib) TestLib.manager TestLib.world
           TestLib.io_ok TestLib.frame "0f3a" " Alice ").
  - reflexivity.
  - simpl. apply NoDup_singleton.
  - reflexivity.
  - reflexivity.
Defined.

Example register_then_refresh_names :
  FaceManager.known_face_names
    (FaceManager.refresh_faces (H := TestLib.lib)
       (FaceManager.register_unknown_face (H := TestLib.lib) TestLib.manager
          TestLib.world TestLib.io_ok TestLib.frame "0f3a" " Alice ").1.1
       (FaceManager.register_unknown_face (H := TestLib.lib) TestLib.manager
          TestLib.world TestLib.io_ok TestLib.frame "0f3a" " Alice ").1.2).1
  = ["Bob"; "Alice"].
Proof. vm_compute. reflexivity. Qed.

(** ** The names that get registered *)

Lemma lstrip_head (s : string) (c : ascii) (r : string) :
  PyStr.lstrip s = String c r → PyStr.is_space c = false.
Proof.
  induction s as [|c0 s IH]; [discriminate|].
  cbn [PyStr.lstrip]. destruct (PyStr.is_space c0) eqn:E; [exact IH|].
  intros [= <- _]. exact E.
Qed.

Lemma lstrip_snoc (c : ascii) (l : list ascii) :
  PyStr.is_space c = false →
  ∃ l', PyStr.lstrip (string_of_list_ascii (l ++ [c])) = string_of_list_ascii (l' ++ [c]).
Proof.
  intros Hc. induction l as [|a l IH].
  - exists []. simpl. rewrite Hc. reflexivity.
  - cbn [app string_of_list_ascii PyStr.lstrip]. destruct (PyStr.is_space a).
    + exact IH.
    + exists (a :: l). reflexivity.
Qed.

(** What [strip] returns is empty, or starts and ends with a character
    that is not whitespace. *)
Lemma strip_trimmed (s : string) :
  PyStr.strip s = ""
  ∨ ∃ (c c' : ascii) (r : string) (l : list ascii),
      PyStr.strip s = String c r ∧ PyStr.is_space c = false
      ∧ list_ascii_of_string (PyStr.strip s) = l ++ [c'] ∧ PyStr.is_space c' = false.
Proof.
  unfold PyStr.strip, PyStr.rstrip. destruct (PyStr.lstrip s) as [|c r] eqn:El.
  - left. reflexivity.
  - right. pose proof (lstrip_head s c r El) as Hc.
    destruct (lstrip_snoc c (List.rev (list_ascii_of_string r)) Hc) as [l' Hl'].
    assert (Hs : PyStr.rev_string (PyStr.lstrip (PyStr.rev_string (String c r)))
                 = String c (string_of_list_ascii (List.rev l'))).
    { unfold PyStr.rev_string at 2. cbn [list_ascii_of_string List.rev]. rewrite Hl'.
      unfold PyStr.rev_string. rewrite list_ascii_of_string_of_list_ascii, rev_app_distr.
      reflexivity. }
    rewrite Hs. cbn [list_ascii_of_string]. rewrite list_ascii_of_string_of_list_ascii.
    destruct l' as [|a l''].
    + exists c, c, (string_of_list_ascii []), [].
      split; [reflexivity|]. split; [assumption|]. split; [reflexivity | assumption].
    + exists c, a, (string_of_list_ascii (List.rev (a :: l''))), (c :: List.rev l'').
      split; [reflexivity|]. split; [assumption|]. split; [reflexivity|].
      cbn [app string_of_list_ascii] in Hl'. exact (lstrip_head _ _ _ Hl').
Qed.

(** X13: the name a successful registration adds to the registry is the
    given name stripped; it is not empty and neither starts nor ends with
    whitespace. *)
Theorem registered_name_trimmed `{FaceLib} (fm : FaceManager.t) (wd : FaceManager.World)
    (io : FaceManager.IO) (face_crop : Image) (h name : string) :
  (FaceManager.register_unknown_face fm wd io face_crop h name).2 = true →
  FaceManager.known_face_names
    (FaceManager.register_unknown_face fm wd io face_crop h name).1.1
  = FaceManager.known_face_names fm ++ [PyStr.strip name]
  ∧ ∃ (c c' : ascii) (r : string) (l : list ascii),
      PyStr.strip name = String c r ∧ PyStr.is_space c = false
      ∧ list_ascii_of_string (PyStr.strip name) = l ++ [c'] ∧ PyStr.is_space c' = false.
Proof.
  intros Hok.
  apply register_success_inv in Hok as (Hne & _ & rgb & enc & encs & r & _ & _ & _ & ->).
  split; [reflexivity|].
  destruct (strip_trimmed name) as [He|Ht]; [|exact Ht].
  rewrite He in Hne. simpl in Hne. rewrite orb_true_r in Hne. discriminate.
Qed.

Lemma registered_name_trimmed_witness :
  FaceManager.known_face_names
    (FaceManager.register_unknown_face (H := TestLib.lib) TestLib.manager TestLib.world
       TestLib.io_ok TestLib.frame "0f3a" " Alice ").1.1
  = FaceManager.known_face_names TestLib.manager ++ [PyStr.strip " Alice "]
  ∧ ∃ (c c' : ascii) (r : string) (l : list ascii),
      PyStr.strip " Alice " = String c r ∧ PyStr.is_space c = false
      ∧ list_ascii_of_string (PyStr.strip " Alice ") = l ++ [c'] ∧ PyStr.is_space c' = false.
Proof.
  apply (registered_name_trimmed (H := TestLib.lib) TestLib.manager TestLib.world
           TestLib.io_ok TestLib.frame "0f3a" " Alice ").
  reflexivity.
Defined.

(** ** The file a registration writes, as the loader reads it *)














(** A name that is an absolute path: [os.path.join] discards the faces
    directory, the image is written elsewhere, the listing is as it was and
    no file is found for the name. *)
Example absolute_name_not_listed :
  let r := FaceManager.register_unknown_face (H := TestLib.lib) TestLib.manager
             TestLib.world TestLib.io_ok TestLib.frame "0f3a" "/tmp/x" in
  r.2 = true
  ∧ OsPath.join "faces" "/tmp/x_20240102_090000.jpg" = "/tmp/x_20240102_090000.jpg"
  ∧ FaceManager.listing r.1.2 = FaceManager.listing TestLib.world
  ∧ FaceManager._find_image_for_name r.1.1 r.1.2 "/tmp/x" = None.
Proof. repeat split. Qed.

Example mary_ann_reloads_as_mary :
  FaceManager.name_of_file "Mary_Ann_20240102_090000.jpg" = "Mary".
Proof. reflexivity. Qed.

(** ** Thumbnails *)

(** X15: after a successful registration the thumbnail of the new name is
    the crop resized (or the error of the resize), the thumbnails of the
    other names are what they were, and if every name had an image before,
    every name has one after. A name without image has no thumbnail. *)
Theorem thumbnail_after_register `{FaceLib} (resize : Image → Z * Z → option Image)
    (fm : FaceManager.t) (wd : FaceManager.World) (io : FaceManager.IO)
    (face_crop : Image) (h name other : string) (size : Z * Z) :
  (FaceManager.register_unknown_face fm wd io face_crop h name).2 = true →
  let fm' := (FaceManager.register_unknown_face fm wd io face_crop h name).1.1 in
  FaceManager.get_face_thumbnail resize fm' (PyStr.strip name) size
  = match resize face_crop size with
    | Some thumbnail => FaceManager.Resized thumbnail
    | None => FaceManager.ResizeRaises
    end
  ∧ (other ≠ PyStr.strip name →
     FaceManager.get_face_thumbnail resize fm' other size
     = FaceManager.get_face_thumbnail resize fm other size)
  ∧ (FaceManager.known_face_images fm' !! other = None →
     FaceManager.get_face_thumbnail resize fm' other size = FaceManager.NoThumbnail)
  ∧ ((∀ n, n ∈ FaceManager.known_face_names fm →
           is_Some (FaceManager.known_face_images fm !! n)) →
     ∀ n, n ∈ FaceManager.known_face_names fm' →
          is_Some (FaceManager.known_face_images fm' !! n)).
Proof.
  intros Hok. cbn zeta.
  apply register_success_inv in Hok as (_ & _ & rgb & enc & encs & r & _ & _ & _ & ->).
  unfold FaceManager.get_face_thumbnail.
  cbn [FaceManager.known_face_images FaceManager.known_face_names FaceManager.with_registry].
  split; [rewrite lookup_insert_eq; reflexivity|]. split; [|split].
  - intros Hne. rewrite lookup_insert_ne by congruence. reflexivity.
  - intros Hnone. rewrite Hnone. reflexivity.
  - intros Hall n Hn. destruct (decide (n = PyStr.strip name)) as [->|Hne].
    + rewrite lookup_insert_eq. eauto.
    + rewrite lookup_insert_ne by congruence. apply Hall.
      apply elem_of_app in Hn as [Hn|Hn]; [assumption|].
      apply list_elem_of_singleton in Hn. contradiction.
Qed.

Lemma thumbnail_after_register_witness :
  let resize := fun (img : Image) (size : Z * Z) =>
                  if (0 <? size.1) && (0 <? size.2) then Some (firstn 1 img) else None in
  let fm' := (FaceManager.register_unknown_face (H := TestLib.lib) TestLib.manager
                TestLib.world TestLib.io_ok TestLib.frame "0f3a" "Alice").1.1 in
  FaceManager.get_face_thumbnail resize fm' (PyStr.strip "Alice") (80, 80)
  = match resize TestLib.frame (80, 80) with
    | Some thumbnail => FaceManager.Resized thumbnail
    | None => FaceManager.ResizeRaises
    end
  ∧ ("Bob" ≠ PyStr.strip "Alice" →
     FaceManager.get_face_thumbnail resize fm' "Bob" (80, 80)
     = FaceManager.get_face_thumbnail resize TestLib.manager "Bob" (80, 80))
  ∧ (FaceManager.known_face_images fm' !! "Bob" = None →
     FaceManager.get_face_thumbnail resize fm' "Bob" (80, 80) = FaceManager.NoThumbnail)
  ∧ ((∀ n, n ∈ FaceManager.known_face_names TestLib.manager →
           is_Some (FaceManager.known_face_images TestLib.manager !! n)) →
     ∀ n, n ∈ FaceManager.known_face_names fm' →
          is_Some (FaceManager.known_face_images fm' !! n)).
Proof.
  intros resize.
  apply (thumbnail_after_register (H := TestLib.lib) resize TestLib.manager TestLib.world
           TestLib.io_ok TestLib.frame "0f3a" "Alice" "Bob" (80, 80)).
  reflexivity.
Defined.

(** ** Saving an unknown face *)





Example unknown_face_path :
  (FaceManager.save_unknown_face TestLib.manager TestLib.world TestLib.io_imwrite_fails
     TestLib.frame (DetectionWorker._generate_detection_hash TestLib.enc_a "Unknown")).2
  = Some "unknowns/unknown_20240102_090000_7de1e7ab.jpg".
Proof. vm_compute. reflexivity. Qed.

(** ** From enrollment to recognition *)

(** X17: once a face is registered and the worker given the lists of the
    manager, a face whose nearest registered encoding is the new one, at a
    distance below the float 0.6 ([threshold]), is handled as known under
    the registered name: the lists being of equal length, the name sits at
    the index of its encoding. *)
Theorem enrolled_face_is_recognised `{FaceLib} (fm : FaceManager.t) (wd : FaceManager.World)
    (io : FaceManager.IO) (face_crop : Image) (h name : string)
    (w : DetectionWorker.t) (probe : FaceEncoding) (loc : Location) (frame : Image) (d : Q) :
  Spec.parallel fm →
  (FaceManager.register_unknown_face fm wd io face_crop h name).2 = true →
  let fm' := (FaceManager.register_unknown_face fm wd io face_crop h name).1.1 in
  let w' := DetectionWorker.update_known_faces w (FaceManager.get_face_encodings fm')
              (FaceManager.get_face_names fm') in
  Spec.first_least (Spec.distances w' probe)
                   (length (FaceManager.known_face_encodings fm)) d →
  (d < DetectionWorker.threshold)%Q →
  DetectionWorker._process_single_face w' probe loc frame
  = DetectionWorker._process_known_face w' (PyStr.strip name) (Np.crop frame loc) loc probe
  ∧ DetectionWorker.session_seen_known w' = DetectionWorker.session_seen_known w
  ∧ DetectionWorker.session_seen_unknown_hashes w'
    = DetectionWorker.session_seen_unknown_hashes w
  ∧ DetectionWorker.pending_frame w' = DetectionWorker.pending_frame w.
Proof.
  intros Hp Hok. cbn zeta. intros Hfl Hd.
  split; [|split; [|split]; reflexivity].
  rewrite (single_face_nearest _ probe loc frame _ d (PyStr.strip name) Hfl).
  - apply Qltb_lt in Hd. rewrite Hd. reflexivity.
  - apply register_success_inv in Hok as (_ & _ & rgb & enc & encs & r & _ & _ & _ & ->).
    unfold FaceManager.get_face_names.
    cbn [DetectionWorker.update_known_faces DetectionWorker.known_face_names
         FaceManager.known_face_names FaceManager.with_registry].
    unfold Spec.parallel in Hp. rewrite <- Hp.
    rewrite lookup_app_r by lia. rewrite Nat.sub_diag. reflexivity.
Qed.

Lemma enrolled_face_is_recognised_witness :
  let fm' := (FaceManager.register_unknown_face (H := TestLib.lib) TestLib.manager
                TestLib.world TestLib.io_ok TestLib.frame "0f3a" "Alice").1.1 in
  let w' := DetectionWorker.update_known_faces TestLib.worker
              (FaceManager.get_face_encodings fm') (FaceManager.get_face_names fm') in
  DetectionWorker._process_single_face (H := TestLib.lib) w' [0] TestLib.box TestLib.frame
  = DetectionWorker._process_known_face w' (PyStr.strip "Alice")
      (Np.crop TestLib.frame TestLib.box) TestLib.box [0]
  ∧ DetectionWorker.session_seen_known w' = DetectionWorker.session_seen_known TestLib.worker
  ∧ DetectionWorker.session_seen_unknown_hashes w'
    = DetectionWorker.session_seen_unknown_hashes TestLib.worker
  ∧ DetectionWorker.pending_frame w' = DetectionWorker.pending_frame TestLib.worker.
Proof.
  apply (enrolled_face_is_recognised (H := TestLib.lib) TestLib.manager TestLib.world
           TestLib.io_ok TestLib.frame "0f3a" "Alice" TestLib.worker [0] TestLib.box
           TestLib.frame (0 # 10)).
  - reflexivity.
  - reflexivity.
  - split; [reflexivity|]. split.
    + intros [|[|j]] d' Hj; vm_compute in Hj; try discriminate;
        injection Hj as <-; vm_compute; discriminate.
    + intros [|[|j]] d' Hlt Hj; vm_compute in Hlt; try lia.
      vm_compute in Hj. injection Hj as <-. vm_compute. reflexivity.
  - reflexivity.
Defined.

(** ** Unknown faces and the truncated hash *)

(** X18: two unknown faces whose encodings agree on their first sixteen
    bytes are one face to the session: once the first is reported, the
    second yields no event and leaves the worker as it is, however the rest
    of the encodings differ. *)
Theorem unknown_faces_merged (w : DetectionWorker.t) (crop1 crop2 : Image)
    (loc1 loc2 : Location) (enc1 enc2 : FaceEncoding) :
  firstn 16 (Np.tobytes enc1) = firstn 16 (Np.tobytes enc2) →
  DetectionWorker._process_unknown_face
    (DetectionWorker._process_unknown_face w crop1 loc1 enc1).1 crop2 loc2 enc2
  = ((DetectionWorker._process_unknown_face w crop1 loc1 enc1).1, None).
Proof.
  intros Hpre.
  assert (Hh : DetectionWorker._generate_detection_hash enc2 "Unknown"
               = DetectionWorker._generate_detection_hash enc1 "Unknown").
  { unfold DetectionWorker._generate_detection_hash.
    change 32%nat with (2 * 16)%nat. rewrite !take_hex, Hpre. reflexivity. }
  apply unknown_face_seen. rewrite Hh.
  unfold DetectionWorker._process_unknown_face. destruct (decide _) as [Hin|Hin].
  - exact Hin.
  - simpl. set_solver.
Qed.

Lemma unknown_faces_merged_witness :
  DetectionWorker._process_unknown_face
    (DetectionWorker._process_unknown_face TestLib.worker [] TestLib.box TestLib.enc_a).1
    [] TestLib.box TestLib.enc_b
  = ((DetectionWorker._process_unknown_face TestLib.worker [] TestLib.box TestLib.enc_a).1,
     None).
Proof.
  apply (unknown_faces_merged TestLib.worker [] [] TestLib.box TestLib.box
           TestLib.enc_a TestLib.enc_b).
  reflexivity.
Defined.

(** ** The images that come with a snapshot *)




(** ** A reload without snapshot *)

(** X20: when there is no snapshot, or it cannot be read, [refresh_faces]
    forgets what was in memory and rebuilds the lists from the directory
    alone: one entry per name read off the usable files, the last file
    listed for a name giving its encoding; every usable file's name is
    registered, once. An unreadable snapshot is logged as an error. *)
Theorem refresh_without_snapshot `{FaceLib} (fm : FaceManager.t) (wd : FaceManager.World) :
  Spec.no_snapshot wd →
  let taken := List.filter Spec.usable (FaceManager.listing wd) in
  let dir_names := List.map (fun e => FaceManager.name_of_file (FaceManager.filename e)) taken in
  let dir_encodings := omap Spec.first_encoding (FaceManager.listing wd) in
  FaceManager.known_face_names (FaceManager.refresh_faces fm wd).1
  = (Spec.last_wins dir_names dir_encodings).1
  ∧ FaceManager.known_face_encodings (FaceManager.refresh_faces fm wd).1
    = (Spec.last_wins dir_names dir_encodings).2
  ∧ NoDup (FaceManager.known_face_names (FaceManager.refresh_faces fm wd).1)
  ∧ (∀ n, n ∈ FaceManager.known_face_names (FaceManager.refresh_faces fm wd).1
          ↔ n ∈ dir_names)
  ∧ (∀ err, FaceManager.encodings_pkl wd = FaceManager.Unreadable err →
            (FaceManager.ERROR, ("Error loading persistent encodings: " ++ err)%string)
            ∈ FaceManager.log (FaceManager.refresh_faces fm wd).2).
Proof.
  intros Hns. cbn zeta. unfold FaceManager.refresh_faces.
  destruct (load_known_faces_lists (FaceManager.with_registry fm [] [] ∅) wd)
    as (Hn & He & Hlen & Hpkl).
  destruct (FaceManager._load_known_faces (FaceManager.with_registry fm [] [] ∅) wd)
    as [fm1 wd1].
  cbn [fst snd FaceManager.known_face_names FaceManager.known_face_encodings
       FaceManager.with_registry app] in *.
  assert (H2 : FaceManager.known_face_names (FaceManager._load_persistent_encodings fm1 wd1).1
               = FaceManager.known_face_names fm1
               ∧ FaceManager.known_face_encodings
                   (FaceManager._load_persistent_encodings fm1 wd1).1
                 = FaceManager.known_face_encodings fm1
               ∧ ∀ err, FaceManager.encodings_pkl wd = FaceManager.Unreadable err →
                        (FaceManager.ERROR,
                         ("Error loading persistent encodings: " ++ err)%string)
                        ∈ FaceManager.log (FaceManager._load_persistent_encodings fm1 wd1).2).
  { unfold FaceManager._load_persistent_encodings. rewrite Hpkl.
    unfold Spec.no_snapshot in Hns.
    destruct (FaceManager.encodings_pkl wd) as [|err|data]; [| |contradiction].
    - split; [reflexivity|]. split; [reflexivity|]. discriminate.
    - split; [reflexivity|]. split; [reflexivity|]. intros err' [= <-].
      cbn [snd FaceManager.logger FaceManager.log]. apply elem_of_app. right.
      apply list_elem_of_singleton. reflexivity. }
  destruct H2 as (Hn2 & He2 & Hlog).
  destruct (FaceManager._load_persistent_encodings fm1 wd1) as [fm2 wd2].
  cbn [fst snd] in *.
  assert (Hp2 : Spec.parallel fm2).
  { unfold Spec.parallel. rewrite Hn2, He2, Hn, He, length_map. symmetry. exact Hlen. }
  destruct (remove_duplicates_last_wins fm2 wd2 Hp2) as (Hn3 & He3 & Hnd & Hin).
  assert (Hlog3 : FaceManager.log (FaceManager._remove_duplicate_encodings fm2 wd2).2
                  = FaceManager.log wd2).
  { unfold FaceManager._remove_duplicate_encodings.
    destruct (dedup_loop_last_wins fm2 (length (FaceManager.known_face_names fm2)) ∅ [] [] ∅
                Hp2) as [ui' Hloop]; [lia | rewrite drop_all; reflexivity
                                     | rewrite drop_all; reflexivity |].
    rewrite Hloop. reflexivity. }
  destruct (FaceManager._remove_duplicate_encodings fm2 wd2) as [fm3 wd3].
  cbn [fst snd FaceManager.logger FaceManager.log] in *.
  rewrite Hn3, He3, Hn2, He2, Hn, He.
  split; [reflexivity|]. split; [reflexivity|].
  split; [rewrite <- Hn, <- Hn2, <- He, <- He2, <- Hn3; exact Hnd|]. split.
  - intros n. rewrite <- Hn, <- Hn2, <- He, <- He2, <- Hn3. apply Hin.
  - intros err Herr. rewrite Hlog3. apply elem_of_app. left. apply Hlog. exact Herr.
Qed.

Lemma refresh_without_snapshot_witness :
  let taken := List.filter (Spec.usable (H := TestLib.lib))
                 (FaceManager.listing TestLib.world_two_alices) in
  let dir_names := List.map (fun e => FaceManager.name_of_file (FaceManager.filename e)) taken in
  let dir_encodings :=
    omap (Spec.first_encoding (H := TestLib.lib))
         (FaceManager.listing TestLib.world_two_alices) in
  FaceManager.known_face_names
    (FaceManager.refresh_faces (H := TestLib.lib) TestLib.manager TestLib.world_two_alices).1
  = (Spec.last_wins dir_names dir_encodings).1
  ∧ FaceManager.known_face_encodings
      (FaceManager.refresh_faces (H := TestLib.lib) TestLib.manager
         TestLib.world_two_alices).1
    = (Spec.last_wins dir_names dir_encodings).2
  ∧ NoDup (FaceManager.known_face_names
             (FaceManager.refresh_faces (H := TestLib.lib) TestLib.manager
                TestLib.world_two_alices).1)
  ∧ (∀ n, n ∈ FaceManager.known_face_names
                (FaceManager.refresh_faces (H := TestLib.lib) TestLib.manager
                   TestLib.world_two_alices).1
          ↔ n ∈ dir_names)
  ∧ (∀ err, FaceManager.encodings_pkl TestLib.world_two_alices = FaceManager.Unreadable err →
            (FaceManager.ERROR, ("Error loading persistent encodings: " ++ err)%string)
            ∈ FaceManager.log
                (FaceManager.refresh_faces (H := TestLib.lib) TestLib.manager
                   TestLib.world_two_alices).2).
Proof.
  apply (refresh_without_snapshot (H := TestLib.lib) TestLib.manager TestLib.world_two_alices).
  exact I.
Defined.

(** ** The crop of a face box *)

Lemma slice_length {A : Type} (a b : Z) (l : list A) :
  0 <= a <= b → b <= Z.of_nat (length l) →
  length (Np.slice a b l) = Z.to_nat (b - a).
Proof.
  intros Hab Hb. unfold Np.slice, Np.bound.
  destruct (a <? 0) eqn:Ea; [apply Z.ltb_lt in Ea; lia|].
  destruct (b <? 0) eqn:Eb; [apply Z.ltb_lt in Eb; lia|].
  rewrite length_firstn, length_skipn. lia.
Qed.

Lemma slice_sublist {A : Type} (P : A → Prop) (a b : Z) (l : list A) :
  Forall P l → Forall P (Np.slice a b l).
Proof.
  intros Hl. unfold Np.slice. apply Forall_take, Forall_drop. exact Hl.
Qed.

(** X21: for a box that lies inside a frame whose rows all have the same
    width, the crop has the height and the width of the box; a box of no
    height gives an empty crop, and an empty crop cannot be registered: the
    call fails and leaves the manager as it is. *)
Theorem crop_has_box_shape `{FaceLib} (frame : Image) (width : nat)
    (top right_ bottom left_ : Z)
    (fm : FaceManager.t) (wd : FaceManager.World) (io : FaceManager.IO) (h name : string) :
  Forall (fun row => length row = width) frame →
  0 <= top <= bottom → bottom <= Z.of_nat (length frame) →
  0 <= left_ <= right_ → right_ <= Z.of_nat width →
  length (Np.crop frame (top, right_, bottom, left_)) = Z.to_nat (bottom - top)
  ∧ Forall (fun row => length row = Z.to_nat (right_ - left_))
           (Np.crop frame (top, right_, bottom, left_))
  ∧ Np.crop frame (top, right_, top, left_) = []
  ∧ (FaceManager.register_unknown_face fm wd io
       (Np.crop frame (top, right_, top, left_)) h name).2 = false
  ∧ (FaceManager.register_unknown_face fm wd io
       (Np.crop frame (top, right_, top, left_)) h name).1.1 = fm.
Proof.
  intros Hrect Htb Hb Hlr Hr. cbn [Np.crop].
  assert (Hempty : List.map (Np.slice left_ right_) (Np.slice top top frame) = []).
  { assert (Hl : length (Np.slice top top frame) = 0%nat)
      by (rewrite slice_length by lia; lia).
    destruct (Np.slice top top frame); [reflexivity | discriminate]. }
  split; [rewrite length_map; apply slice_length; lia|]. split; [|split; [exact Hempty|]].
  - apply Forall_map. apply (slice_sublist _ top bottom) in Hrect.
    eapply Forall_impl; [exact Hrect|]. intros row Hrow. cbn beta.
    apply slice_length; [lia | rewrite Hrow; lia].
  - rewrite Hempty.
    assert (Hf : (FaceManager.register_unknown_face fm wd io [] h name).2 = false)
      by (apply register_no_encoding; exact I).
    split; [exact Hf | apply register_failure_unchanged; exact Hf].
Qed.

Lemma crop_has_box_shape_witness :
  length (Np.crop TestLib.frame (0, 3, 1, 1)) = Z.to_nat (1 - 0)
  ∧ Forall (fun row => length row = Z.to_nat (3 - 1)) (Np.crop TestLib.frame (0, 3, 1, 1))
  ∧ Np.crop TestLib.frame (0, 3, 0, 1) = []
  ∧ (FaceManager.register_unknown_face (H := TestLib.lib) TestLib.manager TestLib.world
       TestLib.io_ok (Np.crop TestLib.frame (0, 3, 0, 1)) "0f3a" "Alice").2 = false
  ∧ (FaceManager.register_unknown_face (H := TestLib.lib) TestLib.manager TestLib.world
       TestLib.io_ok (Np.crop TestLib.frame (0, 3, 0, 1)) "0f3a" "Alice").1.1
    = TestLib.manager.
Proof.
  apply (crop_has_box_shape (H := TestLib.lib) TestLib.frame 4 0 3 1 1 TestLib.manager
           TestLib.world TestLib.io_ok "0f3a" "Alice").
  - repeat constructor.
  - lia.
  - simpl. lia.
  - lia.
  - lia.
Defined.
